(** * SearchLinkNode: a model of [scrapegraphai/nodes/search_link_node.py]

    The node walks over the chunks stored in the pipeline state, extracts
    the http(s) links of each chunk with a regular expression, falls back
    to a language-model chain when that extraction raises, and stores the
    accumulated list under its first output key. *)

From Stdlib Require Import ZArith NArith String Ascii DecimalString.
From stdpp Require Import gmap list.

#[local] Set Warnings "-register-all".
Local Open Scope N_scope.

(** ** Python strings

    A [str] is a sequence of Unicode code points. *)

Abbreviation pystr := (list N).

(** The code points of an ASCII literal. *)
Definition lit (s : string) : pystr :=
  List.map N_of_ascii (list_ascii_of_string s).

(** [str.isspace] on one code point, which is what [\s] tests in a [str]
    pattern: the characters the Unicode database marks as whitespace. *)
Definition is_space (c : N) : bool :=
  ((9 <=? c) && (c <=? 13))
  || ((28 <=? c) && (c <=? 32))
  || (c =? 133) || (c =? 160) || (c =? 5760)
  || ((8192 <=? c) && (c <=? 8202))
  || (c =? 8232) || (c =? 8233) || (c =? 8239) || (c =? 8287)
  || (c =? 12288).

(** ** The module [re], as far as the node's pattern needs it

    A pattern is a sequence of single-character items, each taken once or
    repeated greedily between a lower and an optional upper bound. *)

Module re.

Inductive class_item : Type :=
| CChar (c : N)      (* a literal member of a set *)
| CSpace.            (* \s *)

Inductive charset : Type :=
| Lit (c : N)                         (* a literal character *)
| NotIn (members : list class_item).  (* a negated set [^...] *)

Inductive item : Type :=
| One (p : charset)
| Rep (lo : nat) (hi : option nat) (p : charset).

Definition in_class (m : class_item) (c : N) : bool :=
  match m with
  | CChar x => c =? x
  | CSpace => is_space c
  end.

Definition accepts (p : charset) (c : N) : bool :=
  match p with
  | Lit x => c =? x
  | NotIn ms => negb (existsb (fun m => in_class m c) ms)
  end.

(** How many leading characters of [s] the set accepts. *)
Fixpoint run_length (p : charset) (s : pystr) : nat :=
  match s with
  | c :: s' => if accepts p c then S (run_length p s') else O
  | [] => O
  end.

(** A greedy repeat took [k] characters; try the rest of the pattern
    there, and give characters back one at a time down to [lo]. *)
Fixpoint back_off (rest : pystr -> option nat) (s : pystr) (lo k : nat)
  : option nat :=
  if (k <? lo)%nat then None
  else match rest (drop k s) with
       | Some n => Some (k + n)%nat
       | None => match k with
                 | O => None
                 | S k' => back_off rest s lo k'
                 end
       end.

(** The length of the match of [pat] that starts at the head of [s]. *)
Fixpoint match_here (pat : list item) (s : pystr) : option nat :=
  match pat with
  | [] => Some O
  | One p :: pat' =>
      match s with
      | c :: s' => if accepts p c then S <$> match_here pat' s' else None
      | [] => None
      end
  | Rep lo hi p :: pat' =>
      let n := run_length p s in
      let k := match hi with Some h => Nat.min h n | None => n end in
      back_off (match_here pat') s lo k
  end.

(** The scan of [findall]: from the left, keep every match and resume
    behind it.  [skip] counts the characters of the last match still to
    be passed over.  A pattern that matches the empty string matches once
    more at the end of the text. *)
Fixpoint findall_from (pat : list item) (s : pystr) (skip : nat)
  : list pystr :=
  match s with
  | [] => match match_here pat [] with Some _ => [[]] | None => [] end
  | _ :: s' =>
      match skip with
      | S k => findall_from pat s' k
      | O =>
          match match_here pat s with
          | Some n => take n s :: findall_from pat s' (Nat.pred n)
          | None => findall_from pat s' O
          end
      end
  end.

(** [re.findall(pattern, string)] for a pattern without groups *)
Definition findall (pat : list item) (s : pystr) : list pystr :=
  findall_from pat s O.

End re.

(** The set at the end of the node's pattern: anything but whitespace,
    the double quote (code 34), [<], [>] and the closing square bracket. *)
Definition link_set : re.charset :=
  re.NotIn [re.CSpace; re.CChar 34; re.CChar 60; re.CChar 62; re.CChar 93].

(** The pattern of the node: [http], an optional [s], [://], then one or
    more characters of [link_set]. *)
Definition url_pattern : list re.item :=
  [ re.One (re.Lit 104); re.One (re.Lit 116); re.One (re.Lit 116);
    re.One (re.Lit 112);
    re.Rep 0 (Some 1%nat) (re.Lit 115);
    re.One (re.Lit 58); re.One (re.Lit 47); re.One (re.Lit 47);
    re.Rep 1 None link_set ].

(** ** Exceptions and results *)

Inductive exn : Type :=
| TypeError
| AttributeError
| KeyError
| IndexError
| OtherException (name : string)   (* any other subclass of Exception *)
| BaseOnly (name : string).        (* KeyboardInterrupt, SystemExit, ... *)

(** What [except Exception] catches. *)
Definition is_Exception (e : exn) : bool :=
  match e with
  | BaseOnly _ => false
  | _ => true
  end.

Inductive result (A : Type) : Type :=
| Ok (a : A)
| Raise (e : exn).
Arguments Ok {A} a.
Arguments Raise {A} e.

(** ** Values

    An atom is an object the node never looks into except through
    [str]: [None], a bool, an int, a string, or any other object, given by
    what its [__str__] returns or raises. *)
Inductive atom : Type :=
| ANone
| ABool (b : bool)
| AInt (n : Z)
| AStr (s : pystr)
| AObject (str_result : result pystr).

(** ** The prompt of the fallback *)

Record prompt_template : Type := PromptTemplate {
  template : pystr;
  input_variables : list pystr
}.

Definition quoted (s : string) : pystr := [34] ++ lit s ++ [34].

(** The template text, line by line; every line but the last ends in a
    newline. *)
Definition prompt_relevant_links : pystr :=
  [10]
  ++ lit "                    You are a website scraper and you have just scraped the following content from a website." ++ [10]
  ++ lit "                    Content: {content}" ++ [10]
  ++ lit "                    " ++ [10]
  ++ lit "                    Assume relevance broadly, including any links that might be related or potentially useful " ++ [10]
  ++ lit "                    in relation to the task." ++ [10]
  ++ [10]
  ++ lit "                    Sort it in order of importance, the first one should be the most important one, the last one" ++ [10]
  ++ lit "                    the least important" ++ [10]
  ++ lit "                    " ++ [10]
  ++ lit "                    Please list only valid URLs and make sure to err on the side of inclusion if it's uncertain " ++ [10]
  ++ lit "                    whether the content at the link is directly relevant." ++ [10]
  ++ [10]
  ++ lit "                    Output only a list of relevant links in the format:" ++ [10]
  ++ lit "                    [" ++ [10]
  ++ lit "                        " ++ quoted "link1" ++ lit "," ++ [10]
  ++ lit "                        " ++ quoted "link2" ++ lit "," ++ [10]
  ++ lit "                        " ++ quoted "link3" ++ lit "," ++ [10]
  ++ lit "                        ." ++ [10]
  ++ lit "                        ." ++ [10]
  ++ lit "                        ." ++ [10]
  ++ lit "                    ]" ++ [10]
  ++ lit "                    ".

Definition merge_prompt : prompt_template :=
  {| template := prompt_relevant_links;
     input_variables := [lit "content"; lit "user_prompt"] |}.

(** What the node records: its log lines and its calls of the chain. *)
Inductive event : Type :=
| LogInfo (msg : pystr)                 (* logger.info *)
| LogError (cause : exn)                (* logger.error: extraction raised [cause], falling back *)
| ChainInvoke (prompt : prompt_template) (args : list (pystr * atom)).
                                        (* merge_chain.invoke(args) *)

(** A value of the state or of the configuration: an atom, a list, a
    chunk, that is an object with a [page_content] attribute, or a
    language-model client.  A client is given by what the chain
    [merge_prompt | client | JsonOutputParser()] returns or raises when
    invoked, which may depend on what happened before: the client and the
    parser are not part of this module. *)
Inductive value : Type :=
| VAtom (a : atom)
| VList (items : list value)
| VChunk (page_content : atom)
| VClient (run : list event -> prompt_template -> list (pystr * atom) -> result value).

Definition VNone : value := VAtom ANone.
Definition VStr (s : pystr) : value := VAtom (AStr s).

(** [str(x)] *)
Definition py_str (a : atom) : result pystr :=
  match a with
  | ANone => Ok (lit "None")
  | ABool b => Ok (lit (if b then "True" else "False"))
  | AInt n => Ok (lit (NilZero.string_of_int (Z.to_int n)))
  | AStr s => Ok s
  | AObject r => r
  end.

(** [x.page_content] *)
Definition get_page_content (v : value) : result atom :=
  match v with
  | VChunk c => Ok c
  | _ => Raise AttributeError
  end.

(** The items a [for] loop (or [list +=]) draws from [v].  Lists and
    strings are the iterables of the model; any other value is taken not
    to be one. *)
Definition py_iter (v : value) : result (list value) :=
  match v with
  | VList items => Ok items
  | VAtom (AStr s) => Ok ((fun c => VStr [c]) <$> s)
  | _ => Raise TypeError
  end.

(** [bool(x)], which [not x] negates. *)
Definition truthy (v : value) : bool :=
  match v with
  | VAtom ANone => false
  | VAtom (ABool b) => b
  | VAtom (AInt n) => negb (n =? 0)%Z
  | VAtom (AStr s) => negb (bool_decide (s = []))
  | VAtom (AObject _) => true
  | VList items => negb (bool_decide (length items = O))
  | VChunk _ => true
  | VClient _ => true
  end.

(** [xs[i]] on a list *)
Definition list_item {A} (xs : list A) (i : nat) : result A :=
  match xs !! i with
  | Some x => Ok x
  | None => Raise IndexError
  end.

(** ** The world: the store of state mappings and the record of what the
    node did *)

Abbreviation dict := (gmap pystr value).
Abbreviation loc := positive.

Record world : Type := World {
  store : gmap loc dict;
  log : list event
}.

(** A computation runs in a world and returns or raises.  [None] stands
    for a reference to no object, which no Python program holds. *)
Definition M (A : Type) : Type := world -> option (result A * world).

Definition ret {A} (a : A) : M A := fun w => Some (Ok a, w).

Definition bind {A B} (m : M A) (k : A -> M B) : M B :=
  fun w =>
    match m w with
    | Some (Ok a, w') => k a w'
    | Some (Raise e, w') => Some (Raise e, w')
    | None => None
    end.

Notation "x <- m ;; k" := (bind m (fun x => k))
  (at level 100, m at next level, right associativity).
Notation "m ;;; k" := (bind m (fun _ => k))
  (at level 100, right associativity).

Definition lift {A} (r : result A) : M A := fun w => Some (r, w).

Definition emit (ev : event) : M unit :=
  fun w => Some (Ok tt, {| store := store w; log := log w ++ [ev] |}).

(** [try: body except Exception as e: handler e] *)
Definition try_except {A} (body : M A) (handler : exn -> M A) : M A :=
  fun w =>
    match body w with
    | Some (Raise e, w') =>
        if is_Exception e then handler e w' else Some (Raise e, w')
    | r => r
    end.

(** [state.get(key)]: [None] when the key is absent. *)
Definition dict_get (state : loc) (key : pystr) : M value :=
  fun w =>
    match store w !! state with
    | Some d => Some (Ok (default VNone (d !! key)), w)
    | None => None
    end.

(** [state.update({key: v})] *)
Definition dict_update (state : loc) (key : pystr) (v : value) : M unit :=
  fun w =>
    match store w !! state with
    | Some d =>
        Some (Ok tt, {| store := <[state := <[key := v]> d]> (store w);
                        log := log w |})
    | None => None
    end.

(** ** The language-model chain *)

Definition chain : Type :=
  list event -> prompt_template -> list (pystr * atom) -> result value.

Abbreviation config := (gmap pystr value).

(** [merge_prompt | llm_model | output_parser]: only a runnable composes. *)
Definition pipe (llm_model : value) : result chain :=
  match llm_model with
  | VClient run => Ok run
  | _ => Raise TypeError
  end.

Definition invoke (merge_chain : chain) (prompt : prompt_template)
    (args : list (pystr * atom)) : M value :=
  fun w =>
    Some (merge_chain (log w) prompt args,
          {| store := store w; log := log w ++ [ChainInvoke prompt args] |}).

(** ** The node *)

(** Modelled from the spec: the attributes of the base class [BaseNode],
    which is not in this module; the spec gives it the naming and the
    wiring of the input and output keys, and [__init__] below hands it
    these six arguments. *)
Record base_node : Type := BaseNode {
  node_name : pystr;
  node_type : pystr;
  input : pystr;
  output : list pystr;
  min_input_len : Z;
  node_config : option config
}.

Record node : Type := SearchLinkNode {
  base : base_node;
  llm_model : value;
  verbose : value
}.

(** [node_config[key]] where [node_config] may be [None]. *)
Definition config_item (node_config : option config) (key : pystr)
  : result value :=
  match node_config with
  | None => Raise TypeError
  | Some c => match c !! key with
              | Some v => Ok v
              | None => Raise KeyError
              end
  end.

Definition default_node_name : pystr := lit "GenerateLinks".
Definition VFalse : value := VAtom (ABool false).

Section Construction.

(** [BaseNode.__init__(node_name, node_type, input, output, min_input_len,
    node_config)], which lives in another module. *)
Variable base_init :
  pystr -> pystr -> pystr -> list pystr -> Z -> option config -> result base_node.

(** [SearchLinkNode.__init__] *)
Definition init (input : pystr) (output : list pystr)
    (node_config : option config) (node_name : pystr) : result node :=
  match base_init node_name (lit "node") input output 1%Z node_config with
  | Raise e => Raise e
  | Ok b =>
      match config_item node_config (lit "llm_model") with
      | Raise e => Raise e
      | Ok llm =>
          let verbose :=
            match node_config with
            | None => VFalse
            | Some c => default VFalse (c !! lit "verbose")
            end in
          Ok {| base := b; llm_model := llm; verbose := verbose |}
      end
  end.

End Construction.

(** Modelled from the spec: [BaseNode.__init__], which is not in this
    module, keeps its arguments as attributes. *)
Definition BaseNode_init (node_name node_type input : pystr)
    (output : list pystr) (min_input_len : Z) (node_config : option config)
  : result base_node :=
  Ok (BaseNode node_name node_type input output min_input_len node_config).

(** [tqdm(iterable, desc=..., disable=...)] hands out the items of
    [iterable]; the progress bar it draws is not part of the model. *)
Definition tqdm (iterable : value) (disable : bool) : value := iterable.

(** The body of the [try]: the regular expression over [str] of the
    chunk's content. *)
Definition extract (relevant_links : list value) (chunk : value)
  : M (list value) :=
  content <- lift (get_page_content chunk) ;;
  text <- lift (py_str content) ;;
  let links := re.findall url_pattern text in
  ret (relevant_links ++ (VStr <$> links)).

(** The body of the [except]: log the cause, compose the chain, and ask
    the language model about the content of the chunk. *)
Definition fallback (self : node) (relevant_links : list value)
    (chunk : value) (e : exn) : M (list value) :=
  emit (LogError e) ;;;
  merge_chain <- lift (pipe (llm_model self)) ;;
  content <- lift (get_page_content chunk) ;;
  answer <- invoke merge_chain merge_prompt [(lit "content", content)] ;;
  items <- lift (py_iter answer) ;;
  ret (relevant_links ++ items).

Definition process_chunk (self : node) (relevant_links : list value)
    (chunk : value) : M (list value) :=
  try_except (extract relevant_links chunk)
             (fallback self relevant_links chunk).

(** The [for] loop over the chunks. *)
Fixpoint for_chunks (self : node) (chunks : list value)
    (relevant_links : list value) : M (list value) :=
  match chunks with
  | [] => ret relevant_links
  | chunk :: rest =>
      relevant_links' <- process_chunk self relevant_links chunk ;;
      for_chunks self rest relevant_links'
  end.

(** [SearchLinkNode.execute] *)
Definition execute (self : node) (state : loc) : M loc :=
  emit (LogInfo (lit "--- Executing " ++ node_name (base self) ++ lit " Node ---")) ;;;
  parsed_content_chunks <- dict_get state (lit "doc") ;;
  chunks <- lift (py_iter (tqdm parsed_content_chunks
                                (negb (truthy (verbose self))))) ;;
  relevant_links <- for_chunks self chunks [] ;;
  key <- lift (list_item (output (base self)) 0) ;;
  dict_update state key (VList relevant_links) ;;;
  ret state.

(** ** The links of a text, as the specification words them *)

(** A character a link may go on with: none of whitespace, the double
    quote, [<], [>] and the closing square bracket. *)
Definition link_char (c : N) : bool :=
  negb (is_space c || (c =? 34) || (c =? 60) || (c =? 62) || (c =? 93)).

(** A link: the scheme, then one or more link characters. *)
Definition is_link (m : pystr) : Prop :=
  ∃ body, (m = lit "http://" ++ body ∨ m = lit "https://" ++ body)
          ∧ body ≠ [] ∧ Forall (λ c, link_char c = true) body.

(** The text that follows a link does not extend it. *)
Definition ends_link (rest : pystr) : Prop :=
  match rest with
  | [] => True
  | c :: _ => link_char c = false
  end.

(** Some link begins at the head of the text. *)
Definition link_at_head (s : pystr) : Prop :=
  ∃ m rest, s = m ++ rest ∧ is_link m.

(** The text read from the left: a character at which no link begins is
    passed over, a link is taken as far as it goes and the reading goes
    on behind it. *)
Inductive links_of : pystr → list pystr → Prop :=
| links_end : links_of [] []
| links_skip c s ms :
    ¬ link_at_head (c :: s) → links_of s ms → links_of (c :: s) ms
| links_take m rest ms :
    is_link m → ends_link rest → links_of rest ms →
    links_of (m ++ rest) (m :: ms).

(** ** Auxiliary definitions of the proofs *)

Fixpoint starts_with (p s : pystr) : bool :=
  match p, s with
  | [], _ => true
  | x :: p', c :: s' => (c =? x) && starts_with p' s'
  | _ :: _, [] => false
  end.

(** The end of the link whose scheme takes the first [k] characters. *)
Definition link_end (k : nat) (s : pystr) : option nat :=
  match re.run_length link_set (drop k s) with
  | O => None
  | S r => Some (k + S r)%nat
  end.

Definition https : pystr := Eval cbv in lit "https://".
Definition http : pystr := Eval cbv in lit "http://".

(** The events of the fallback branch. *)
Definition is_fallback_event (ev : event) : bool :=
  match ev with
  | LogInfo _ => false
  | LogError _ | ChainInvoke _ _ => true
  end.

(** What was recorded between two worlds. *)
Definition events_since (w w' : world) : list event :=
  drop (length (log w)) (log w').

(** Between [w] and [w'] the fallback branch was never entered. *)
Definition regex_only (w w' : world) : Prop :=
  Forall (λ ev, is_fallback_event ev = false) (events_since w w').

(** What the [try] body adds for one chunk. *)
Definition chunk_links (chunk : value) : result (list pystr) :=
  match get_page_content chunk with
  | Ok content =>
      match py_str content with
      | Ok text => Ok (re.findall url_pattern text)
      | Raise e => Raise e
      end
  | Raise e => Raise e
  end.

(** The loop when no chunk reaches the fallback. *)
Fixpoint regex_links (chunks : list value) (acc : list value)
  : result (list value) :=
  match chunks with
  | [] => Ok acc
  | chunk :: rest =>
      match chunk_links chunk with
      | Ok links => regex_links rest (acc ++ (VStr <$> links))
      | Raise e => Raise e
      end
  end.

(** A recorded call of the chain carries the declared prompt and, as its
    only argument, the content of one of the chunks. *)
Definition chain_call_ok (chunks : list value) (ev : event) : Prop :=
  match ev with
  | ChainInvoke p args =>
      p = merge_prompt ∧ ∃ c, args = [(lit "content", c)] ∧ VChunk c ∈ chunks
  | _ => True
  end.

(** The world once [execute] has logged its first line. *)
Definition started (self : node) (w : world) : world :=
  {| store := store w;
     log := log w ++ [LogInfo (lit "--- Executing " ++ node_name (base self)
                               ++ lit " Node ---")] |}.

(** The interpreter's own lookup and type faults, as opposed to an error
    of a kind of its own. *)
Definition generic_fault (e : exn) : bool :=
  match e with
  | TypeError | AttributeError | KeyError | IndexError => true
  | OtherException _ | BaseOnly _ => false
  end.

(** The outcome of [execute] when no chunk reaches the fallback: the key
    and the list it writes, or what it raises. *)
Definition regex_outcome (self : node) (d : dict)
  : result (pystr * list value) :=
  match py_iter (default VNone (d !! lit "doc")) with
  | Raise e => Raise e
  | Ok chunks =>
      match regex_links chunks [] with
      | Raise e => Raise e
      | Ok links =>
          match list_item (output (base self)) 0 with
          | Raise e => Raise e
          | Ok key => Ok (key, links)
          end
      end
  end.

(** ** Scenarios *)

(** A client whose chain answers with one fixed link. *)
Definition stub_client : value :=
  VClient (λ _ _ _, Ok (VList [VStr (lit "https://stub.example")])).

(** A client whose chain answers with a number. *)
Definition number_client : value :=
  VClient (λ _ _ _, Ok (VAtom (AInt 7))).

Definition stub_config : config := {[ lit "llm_model" := stub_client ]}.

Definition node_for (input : pystr) (client : value) : node :=
  {| base := BaseNode default_node_name (lit "node") input [lit "links"] 1%Z
                      (Some {[ lit "llm_model" := client ]});
     llm_model := client;
     verbose := VFalse |}.

Definition stub_node : node := node_for (lit "doc") stub_client.

(** A world with one state mapping, at location 1, and an empty log. *)
Definition world_of (d : dict) : world :=
  {| store := {[ 1%positive := d ]}; log := [] |}.

Definition doc_of (contents : list atom) : dict :=
  {[ lit "doc" := VList (VChunk <$> contents) ]}.

Definition two_chunks : dict :=
  doc_of [AStr (lit "Visit https://a.com/x and http://b.org");
          AStr (lit "No links here")].

(** An object whose [__str__] raises. *)
Definition unprintable : atom := AObject (Raise (OtherException "ValueError")).

Definition started_log : list event :=
  [LogInfo (lit "--- Executing GenerateLinks Node ---")].

(** The world the two-chunk scenario ends in. *)
Definition two_chunks_done : world :=
  {| store := {[ 1%positive :=
        <[lit "links" := VList [VStr (lit "https://a.com/x"); VStr (lit "http://b.org")]]>
        two_chunks ]};
     log := started_log |}.

(** A state with chunks under two keys. *)
Definition two_keys : dict :=
  {[ lit "parsed_doc" := VList [VChunk (AStr (lit "see http://a.com"))];
     lit "doc" := VList [VChunk (AStr (lit "see http://b.org"))] ]}.

(** The node with another input selector. *)
Definition with_input (self : node) (selector : pystr) : node :=
  {| base := {| node_name := node_name (base self);
                node_type := node_type (base self);
                input := selector;
                output := output (base self);
                min_input_len := min_input_len (base self);
                node_config := node_config (base self) |};
     llm_model := llm_model self;
     verbose := verbose self |}.

Definition number_node : node := node_for (lit "doc") number_client.

(** A client whose chain answers with a string instead of a list. *)
Definition string_client : value := VClient (λ _ _ _, Ok (VStr (lit "ab"))).

(** Three chunks, the second with a content [str] raises on. *)
Definition three_chunks : dict :=
  doc_of [AStr (lit "http://a.com"); unprintable; AStr (lit "http://b.org")].

Definition three_chunks_started : world :=
  {| store := {[ 1%positive := three_chunks ]}; log := started_log |}.

Definition three_chunks_failed : world :=
  {| store := {[ 1%positive := three_chunks ]};
     log := started_log ++
            [LogError (OtherException "ValueError");
             ChainInvoke merge_prompt [(lit "content", unprintable)]] |}.

(** The two chunks with an older value under the output key. *)
Definition stale : dict := <[lit "links" := VNone]> two_chunks.

(** ** Auxiliary definitions of the further properties *)

Definition is_chain_call (ev : event) : bool :=
  match ev with ChainInvoke _ _ => true | _ => false end.

Definition is_log_error (ev : event) : bool :=
  match ev with LogError _ => true | _ => false end.

(** The world with another store and the same log. *)
Definition with_store (s : gmap loc dict) (w : world) : world :=
  {| store := s; log := log w |}.

(** A sequence whose second element is a string, not a chunk. *)
Definition mixed_doc : dict :=
  {[ lit "doc" := VList [VChunk (AStr (lit "http://a.com")); VStr (lit "http://b.org")] ]}.

(** An object whose [__str__] is interrupted from the keyboard. *)
Definition interrupting : atom := AObject (Raise (BaseOnly "KeyboardInterrupt")).

Definition interrupted_doc : dict := doc_of [interrupting].

(** A node built with an empty list of output keys. *)
Definition no_output_node : node :=
  SearchLinkNode (BaseNode default_node_name (lit "node") (lit "doc") [] 1%Z None)
                 stub_client VFalse.

(** Chunks holding a number, a string and an object with a [__str__]. *)
Definition printable_doc : dict :=
  doc_of [AInt (-5); AStr (lit "at http://a.b"); AObject (Ok (lit "<https://c.d>"))].

(** * Proofs

    ** The regular expression *)
Example findall_two :
  re.findall url_pattern (lit "Visit https://a.com/x and http://b.org")
  = [lit "https://a.com/x"; lit "http://b.org"].
Proof. vm_compute. reflexivity. Qed.

(** A link stops at a character of the excluded set; a scheme with nothing
    behind it is no link. *)
Example findall_stops :
  re.findall url_pattern (lit "<a href=http://b.org/x>y</a> [https://c.d] https:// http://")
  = [lit "http://b.org/x"; lit "https://c.d"].
Proof. vm_compute. reflexivity. Qed.

(** A no-break space (code 160) is whitespace and ends a link. *)
Example findall_no_break_space :
  re.findall url_pattern (lit "http://a" ++ [160] ++ lit "b https://c") =
    [lit "http://a"; lit "https://c"].
Proof. vm_compute. reflexivity. Qed.

(** A scheme inside a link is part of that link. *)
Example findall_nested :
  re.findall url_pattern (lit "https://http://a") = [lit "https://http://a"].
Proof. vm_compute. reflexivity. Qed.

Lemma accepts_link_set c : re.accepts link_set c = link_char c.
Proof.
  unfold link_char, link_set, re.accepts, existsb, re.in_class.
  rewrite orb_false_r, !orb_assoc. reflexivity.
Qed.

Lemma match_plus_last s :
  re.match_here [re.Rep 1 None link_set] s = link_end 0 s.
Proof.
  unfold link_end. cbn [re.match_here]. rewrite drop_0.
  destruct (re.run_length link_set s) as [|r]; cbn; [reflexivity|].
  rewrite Nat.add_0_r. reflexivity.
Qed.

Local Arguments N.eqb : simpl never.

Lemma link_end_S k c s : link_end (S k) (c :: s) = S <$> link_end k s.
Proof. unfold link_end. rewrite skipn_cons. destruct (re.run_length _ _); reflexivity. Qed.

Lemma match_opt x pat s :
  re.match_here (re.Rep 0 (Some 1%nat) (re.Lit x) :: pat) s =
    match s with
    | c :: s' =>
        if c =? x
        then match re.match_here pat s' with
             | Some n => Some (S n)
             | None => re.match_here pat s
             end
        else re.match_here pat s
    | [] => re.match_here pat []
    end.
Proof.
  cbn [re.match_here]. destruct s as [|c s]; cbn [re.run_length re.accepts].
  - cbn. destruct (re.match_here pat []); reflexivity.
  - destruct (c =? x); cbn; rewrite ?drop_0.
    + destruct (re.match_here pat s); [reflexivity|].
      destruct (re.match_here pat (c :: s)); reflexivity.
    + destruct (re.match_here pat (c :: s)); reflexivity.
Qed.

Lemma match_lit c x pat s :
  re.match_here (re.One (re.Lit x) :: pat) (c :: s) =
    if c =? x then S <$> re.match_here pat s else None.
Proof. reflexivity. Qed.

Ltac next_char s :=
  destruct s as [|? s]; [reflexivity|];
  cbn [starts_with];
  rewrite ?match_lit;
  match goal with
  | |- context [?c =? ?x] => destruct (N.eqb_spec c x) as [->|?]
  end; [|reflexivity]; cbn [andb].

(** The match of the pattern at the head of a text, in closed form: the
    scheme, with or without its [s], then the run of link characters, which
    must not be empty. *)
Lemma match_here_url s :
  re.match_here url_pattern s =
    if starts_with https s then link_end 8 s
    else if starts_with http s then link_end 7 s
    else None.
Proof.
  unfold url_pattern, https, http.
  do 4 next_char s.
  rewrite match_opt.
  destruct s as [|c s]; [reflexivity|].
  cbn [starts_with].
  destruct (N.eqb_spec c 115) as [->|Hc].
  - rewrite (match_lit 115 58). change (115 =? 58) with false. cbn [andb].
    do 3 next_char s.
    rewrite match_plus_last, !link_end_S.
    destruct (link_end 0 s); reflexivity.
  - cbn [andb]. rewrite match_lit.
    destruct (N.eqb_spec c 58) as [->|?]; [|reflexivity]. cbn [andb].
    do 2 next_char s.
    rewrite match_plus_last, !link_end_S. reflexivity.
Qed.

Lemma run_length_app body rest :
  Forall (λ c, link_char c = true) body → ends_link rest →
  re.run_length link_set (body ++ rest) = length body.
Proof.
  induction 1 as [|c body Hc _ IH]; intros Hrest; cbn [app re.run_length length].
  - destruct rest as [|c rest]; [reflexivity|].
    cbn [re.run_length]. rewrite accepts_link_set, Hrest. reflexivity.
  - rewrite accepts_link_set, Hc, IH by assumption. reflexivity.
Qed.

Lemma run_length_take s :
  Forall (λ c, link_char c = true) (take (re.run_length link_set s) s).
Proof.
  induction s as [|c s IH]; cbn [re.run_length]; [constructor|].
  rewrite accepts_link_set. destruct (link_char c) eqn:Hc; cbn [take].
  - by constructor.
  - constructor.
Qed.

Lemma run_length_drop s : ends_link (drop (re.run_length link_set s) s).
Proof.
  induction s as [|c s IH]; cbn [re.run_length]; [exact I|].
  rewrite accepts_link_set. destruct (link_char c) eqn:Hc.
  - by rewrite skipn_cons.
  - exact Hc.
Qed.

Lemma run_length_le s : (re.run_length link_set s ≤ length s)%nat.
Proof.
  induction s as [|c s IH]; cbn [re.run_length length]; [lia|].
  destruct (re.accepts link_set c); lia.
Qed.

Lemma starts_with_app p rest : starts_with p (p ++ rest) = true.
Proof.
  induction p as [|x p IH]; [reflexivity|].
  cbn [app starts_with]. by rewrite N.eqb_refl, IH.
Qed.

Lemma starts_with_inv p s : starts_with p s = true → s = p ++ drop (length p) s.
Proof.
  revert s. induction p as [|x p IH]; intros s H; [reflexivity|].
  destruct s as [|c s]; [discriminate|]. cbn [starts_with] in H.
  apply andb_true_iff in H as [Hc Hs]. apply N.eqb_eq in Hc as ->.
  cbn [length app]. rewrite skipn_cons. f_equal. by apply IH.
Qed.

(** What [link_end] finds behind a scheme of [k] characters. *)
Lemma link_end_app p body rest :
  body ≠ [] → Forall (λ c, link_char c = true) body → ends_link rest →
  link_end (length p) (p ++ body ++ rest) = Some (length (p ++ body)).
Proof.
  intros Hne Hall Hrest. unfold link_end.
  rewrite drop_app_length, run_length_app by assumption.
  destruct body; [done|]. by rewrite length_app.
Qed.

Lemma link_end_Some p s n :
  starts_with p s = true → link_end (length p) s = Some n →
  ∃ body, take n s = p ++ body ∧ body ≠ []
          ∧ Forall (λ c, link_char c = true) body
          ∧ ends_link (drop n s) ∧ (n ≤ length s)%nat.
Proof.
  intros Hp Hn. apply starts_with_inv in Hp.
  set (t := drop (length p) s) in *. unfold link_end in Hn. fold t in Hn.
  destruct (re.run_length link_set t) as [|r] eqn:Hr; [discriminate|].
  injection Hn as <-.
  pose proof (run_length_take t) as Hall.
  pose proof (run_length_drop t) as Hend.
  pose proof (run_length_le t) as Hle.
  rewrite Hr in Hall, Hend, Hle.
  exists (take (S r) t). rewrite Hp.
  rewrite take_app_add', drop_app_add' by reflexivity.
  repeat split; try done.
  - destruct t; [cbn in Hle; lia | done].
  - rewrite length_app. lia.
Qed.

(** A link followed by text that does not extend it is the match at its
    head. *)
Lemma match_link m rest :
  is_link m → ends_link rest →
  re.match_here url_pattern (m ++ rest) = Some (length m).
Proof.
  intros (body & Hm & Hne & Hall) Hrest. rewrite match_here_url.
  destruct Hm as [-> | ->]; rewrite <- app_assoc.
  - change (lit "http://") with http.
    replace (starts_with https (http ++ body ++ rest)) with false by reflexivity.
    rewrite starts_with_app. by apply (link_end_app http).
  - change (lit "https://") with https.
    rewrite starts_with_app. by apply (link_end_app https).
Qed.

(** A match at the head of a text is a link that the rest of the text does
    not extend. *)
Lemma match_is_link s n :
  re.match_here url_pattern s = Some n →
  is_link (take n s) ∧ ends_link (drop n s) ∧ (0 < n ≤ length s)%nat.
Proof.
  rewrite match_here_url. intros H.
  destruct (starts_with https s) eqn:H1; [|destruct (starts_with http s) eqn:H2; [|done]].
  - destruct (link_end_Some https s n H1 H) as (body & Ht & Hne & Hall & Hend & Hle).
    split; [exists body; auto|]. split; [done|]. split; [|done].
    destruct n; [|lia]. by rewrite take_0 in Ht.
  - destruct (link_end_Some http s n H2 H) as (body & Ht & Hne & Hall & Hend & Hle).
    split; [exists body; auto|]. split; [done|]. split; [|done].
    destruct n; [|lia]. by rewrite take_0 in Ht.
Qed.

(** Where the pattern does not match, no link begins. *)
Lemma no_match_no_link s :
  re.match_here url_pattern s = None → ¬ link_at_head s.
Proof.
  intros H (m & rest & -> & body & Hm & Hne & Hall).
  destruct body as [|c body]; [done|]. apply Forall_cons in Hall as [Hc _].
  rewrite match_here_url in H.
  destruct Hm as [-> | ->]; rewrite <- app_assoc in H.
  - change (lit "http://") with http in H.
    replace (starts_with https (http ++ (c :: body) ++ rest)) with false in H by reflexivity.
    rewrite starts_with_app in H. unfold link_end in H.
    change 7%nat with (length http) in H. rewrite drop_app_length in H.
    cbn [app re.run_length] in H. by rewrite accepts_link_set, Hc in H.
  - change (lit "https://") with https in H.
    rewrite starts_with_app in H. unfold link_end in H.
    change 8%nat with (length https) in H. rewrite drop_app_length in H.
    cbn [app re.run_length] in H. by rewrite accepts_link_set, Hc in H.
Qed.

(** [skip] characters passed over are characters dropped. *)
Lemma findall_from_skip pat s skip :
  (skip ≤ length s)%nat →
  re.findall_from pat s skip = re.findall_from pat (drop skip s) O.
Proof.
  revert skip. induction s as [|c s IH]; intros skip Hle.
  - by rewrite drop_nil.
  - destruct skip as [|k]; [reflexivity|].
    cbn [re.findall_from]. rewrite skipn_cons. apply IH. cbn in Hle. lia.
Qed.

(** [findall] passes over a character at which the pattern does not match. *)
Lemma re_findall_no_match c s :
  re.match_here url_pattern (c :: s) = None →
  re.findall url_pattern (c :: s) = re.findall url_pattern s.
Proof. unfold re.findall. cbn [re.findall_from]. by intros ->. Qed.

(** [findall] takes the match at the head and goes on behind it. *)
Lemma re_findall_match s n :
  re.match_here url_pattern s = Some n →
  re.findall url_pattern s = take n s :: re.findall url_pattern (drop n s).
Proof.
  intros H. destruct (match_is_link s n H) as (_ & _ & Hn).
  destruct s as [|c s]; [cbn in Hn; lia|].
  unfold re.findall. cbn [re.findall_from]. rewrite H. f_equal.
  destruct n as [|n]; [lia|]. cbn [Nat.pred]. rewrite skipn_cons.
  apply findall_from_skip. cbn in Hn. lia.
Qed.

(** What [findall] returns is a reading of the text into links. *)
Lemma links_of_findall s : links_of s (re.findall url_pattern s).
Proof.
  remember (length s) as k eqn:Hk. revert s Hk.
  induction k as [k IH] using lt_wf_ind. intros s ->.
  destruct s as [|c s]; [constructor|].
  destruct (re.match_here url_pattern (c :: s)) as [n|] eqn:Hm.
  - rewrite (re_findall_match _ _ Hm).
    destruct (match_is_link _ _ Hm) as (Hlink & Hend & Hn).
    rewrite <- (take_drop n (c :: s)) at 1.
    apply links_take; [done..|].
    apply (IH (length (drop n (c :: s)))); [|reflexivity].
    rewrite length_drop. lia.
  - rewrite (re_findall_no_match _ _ Hm).
    apply links_skip; [by apply no_match_no_link|].
    apply (IH (length s)); [cbn; lia | reflexivity].
Qed.

(** There is no other reading. *)
Lemma links_of_unique s ms : links_of s ms → ms = re.findall url_pattern s.
Proof.
  induction 1 as [|c s ms Hno _ IH|m rest ms Hm Hrest _ IH].
  - reflexivity.
  - rewrite re_findall_no_match; [done|].
    destruct (re.match_here url_pattern (c :: s)) as [n|] eqn:Hn; [|done].
    destruct Hno. destruct (match_is_link _ _ Hn) as (Hlink & _ & _).
    exists (take n (c :: s)), (drop n (c :: s)). by rewrite take_drop.
  - rewrite (re_findall_match _ _ (match_link m rest Hm Hrest)).
    by rewrite take_app_length, drop_app_length, IH.
Qed.

(** Every match is a link. *)
Lemma links_of_links s ms : links_of s ms → Forall is_link ms.
Proof. induction 1; [constructor | done | by constructor]. Qed.

(** ** The loop and [execute] *)

Lemma extract_eq acc chunk w :
  extract acc chunk w =
    Some (match chunk_links chunk with
          | Ok links => Ok (acc ++ (VStr <$> links))
          | Raise e => Raise e
          end, w).
Proof.
  unfold extract, chunk_links, bind, lift, ret.
  destruct (get_page_content chunk) as [c|e]; [|reflexivity].
  destruct (py_str c); reflexivity.
Qed.

Lemma chain_call_ok_mono chunks chunks' ev :
  chunks ⊆ chunks' → chain_call_ok chunks ev → chain_call_ok chunks' ev.
Proof.
  intros Hsub. destruct ev as [| |p args]; cbn; [done..|].
  intros (-> & c & -> & Hc). split; [done|]. exists c. split; [done|]. by apply Hsub.
Qed.

Lemma regex_only_app w w' evs :
  log w' = log w ++ evs →
  regex_only w w' ↔ Forall (λ ev, is_fallback_event ev = false) evs.
Proof.
  intros H. unfold regex_only, events_since. by rewrite H, drop_app_length.
Qed.

Section Loop.

Variable self : node.

Lemma process_chunk_eq acc chunk w :
  process_chunk self acc chunk w =
    match chunk_links chunk with
    | Ok links => Some (Ok (acc ++ (VStr <$> links)), w)
    | Raise e =>
        if is_Exception e then fallback self acc chunk e w
        else Some (Raise e, w)
    end.
Proof.
  unfold process_chunk, try_except. rewrite extract_eq.
  destruct (chunk_links chunk); reflexivity.
Qed.

(** The fallback always comes back; it leaves the store alone, logs the
    cause first, and calls the chain at most once, with the content of
    the chunk as its only argument. *)
Lemma fallback_effects acc chunk e w :
  ∃ r w' evs,
    fallback self acc chunk e w = Some (r, w')
    ∧ store w' = store w
    ∧ log w' = log w ++ LogError e :: evs
    ∧ Forall (chain_call_ok [chunk]) evs.
Proof.
  unfold fallback, bind, emit, lift, invoke, ret.
  destruct (pipe (llm_model self)) as [run|e1]; cbn [store log].
  2:{ eexists _, _, []. split_and!; try reflexivity. constructor. }
  destruct chunk as [a|items|c|run']; cbn [get_page_content].
  1,2,4: eexists _, _, []; split_and!; try reflexivity; constructor.
  assert (Forall (chain_call_ok [VChunk c])
            [ChainInvoke merge_prompt [(lit "content", c)]]) as Hcall.
  { repeat constructor. exists c. split; [done|]. apply list_elem_of_here. }
  destruct (run _ _ _) as [answer|e2]; cbn [store log].
  2:{ eexists _, _, [_]. split_and!; try reflexivity; [|exact Hcall].
      by rewrite <- app_assoc. }
  destruct (py_iter answer); eexists _, _, [_];
    (split_and!; try reflexivity; [|exact Hcall]); by rewrite <- app_assoc.
Qed.

Lemma process_chunk_effects acc chunk w :
  ∃ r w' evs,
    process_chunk self acc chunk w = Some (r, w')
    ∧ store w' = store w
    ∧ log w' = log w ++ evs
    ∧ Forall (chain_call_ok [chunk]) evs.
Proof.
  rewrite process_chunk_eq.
  destruct (chunk_links chunk) as [links|e].
  - eexists _, _, []. split_and!; try reflexivity; [by rewrite app_nil_r | constructor].
  - destruct (is_Exception e).
    + destruct (fallback_effects acc chunk e w) as (r & w' & evs & -> & Hs & Hl & Hev).
      eexists _, _, (LogError e :: evs). split_and!; try done. by constructor.
    + eexists _, _, []. split_and!; try reflexivity; [by rewrite app_nil_r | constructor].
Qed.

Lemma for_chunks_effects chunks acc w :
  ∃ r w' evs,
    for_chunks self chunks acc w = Some (r, w')
    ∧ store w' = store w
    ∧ log w' = log w ++ evs
    ∧ Forall (chain_call_ok chunks) evs.
Proof.
  revert acc w. induction chunks as [|chunk rest IH]; intros acc w.
  - eexists _, _, []. split_and!; try reflexivity; [by rewrite app_nil_r | constructor].
  - cbn [for_chunks]. unfold bind.
    destruct (process_chunk_effects acc chunk w)
      as (r & w1 & evs1 & -> & Hs1 & Hl1 & Hev1).
    assert (Forall (chain_call_ok (chunk :: rest)) evs1) as Hev1'.
    { eapply Forall_impl; [exact Hev1|]. intros ev. apply chain_call_ok_mono.
      intros x Hx. apply list_elem_of_singleton in Hx as ->. apply list_elem_of_here. }
    destruct r as [acc'|e].
    + destruct (IH acc' w1) as (r & w2 & evs2 & -> & Hs2 & Hl2 & Hev2).
      eexists _, _, (evs1 ++ evs2). split_and!; [done | congruence | |].
      * by rewrite Hl2, Hl1, app_assoc.
      * apply Forall_app. split; [done|].
        eapply Forall_impl; [exact Hev2|]. intros ev. apply chain_call_ok_mono.
        intros x Hx. by apply list_elem_of_further.
    + by eexists _, _, evs1.
Qed.

Lemma for_chunks_app pre post acc w :
  for_chunks self (pre ++ post) acc w =
    match for_chunks self pre acc w with
    | Some (Ok acc', w') => for_chunks self post acc' w'
    | other => other
    end.
Proof.
  revert acc w. induction pre as [|chunk pre IH]; intros acc w; [reflexivity|].
  cbn [app for_chunks]. unfold bind.
  destruct (process_chunk self acc chunk w) as [[[acc'|e] w1]|]; [apply IH|done..].
Qed.

(** A run of the loop that records no fallback event is the regular
    expression alone: it records nothing, and what it raises, if it
    raises, is not an [Exception]. *)
Lemma for_chunks_regex_only chunks acc w r w' :
  for_chunks self chunks acc w = Some (r, w') → regex_only w w' →
  w' = w ∧ r = regex_links chunks acc
  ∧ (∀ e, r = Raise e → is_Exception e = false).
Proof.
  revert acc w. induction chunks as [|chunk rest IH]; intros acc w Hrun Hlog.
  - cbn in Hrun. by injection Hrun as <- <-.
  - cbn [for_chunks regex_links] in *. unfold bind in Hrun.
    rewrite process_chunk_eq in Hrun.
    destruct (chunk_links chunk) as [links|e]; [by apply IH|].
    destruct (is_Exception e) eqn:He.
    2:{ injection Hrun as <- <-. split_and!; [done..|]. by intros ? [= <-]. }
    exfalso.
    destruct (fallback_effects acc chunk e w) as (r1 & w1 & evs1 & Hfb & _ & Hl1 & _).
    rewrite Hfb in Hrun.
    assert (∃ evs2, log w' = log w1 ++ evs2) as [evs2 Hl2].
    { destruct r1 as [acc'|e1].
      - destruct (for_chunks_effects rest acc' w1) as (r2 & w2 & evs2 & Hr2 & _ & Hl2 & _).
        rewrite Hr2 in Hrun. injection Hrun as <- <-. by exists evs2.
      - injection Hrun as <- <-. exists []. by rewrite app_nil_r. }
    rewrite Hl1 in Hl2. rewrite <- app_assoc in Hl2. cbn [app] in Hl2.
    apply (regex_only_app _ _ _ Hl2) in Hlog.
    apply Forall_cons in Hlog as [Hbad _]. discriminate Hbad.
Qed.

Lemma execute_eq state w d :
  store w !! state = Some d →
  execute self state w =
    match py_iter (default VNone (d !! lit "doc")) with
    | Raise e => Some (Raise e, started self w)
    | Ok chunks =>
        match for_chunks self chunks [] (started self w) with
        | Some (Ok links, w1) =>
            match list_item (output (base self)) 0 with
            | Ok key =>
                Some (Ok state,
                      {| store := <[state := <[key := VList links]> d]> (store w);
                         log := log w1 |})
            | Raise e => Some (Raise e, w1)
            end
        | Some (Raise e, w1) => Some (Raise e, w1)
        | None => None
        end
    end.
Proof.
  intros Hd. unfold execute, bind, emit, dict_get, lift, tqdm. cbn [store log].
  rewrite Hd. fold (started self w).
  destruct (py_iter _) as [chunks|e]; [|reflexivity].
  destruct (for_chunks_effects chunks [] (started self w))
    as (r & w1 & evs & -> & Hs & _ & _).
  destruct r as [links|e]; [|reflexivity].
  destruct (list_item _ _) as [key|e]; [|reflexivity].
  unfold dict_update, ret. rewrite Hs. cbn [started store]. rewrite Hd. reflexivity.
Qed.

End Loop.

(** ** Consequences for whole runs *)

Lemma for_chunks_strings self texts acc w :
  for_chunks self ((λ s, VChunk (AStr s)) <$> texts) acc w =
    Some (Ok (acc ++ (VStr <$> concat (re.findall url_pattern <$> texts))), w).
Proof.
  revert acc. induction texts as [|s texts IH]; intros acc.
  - cbn. by rewrite app_nil_r.
  - cbn [fmap list_fmap concat for_chunks]. unfold bind.
    rewrite process_chunk_eq. cbn [chunk_links get_page_content py_str].
    change (list_fmap _ _ ?f ?l) with (f <$> l).
    rewrite IH, fmap_app, app_assoc. reflexivity.
Qed.

(** Whatever [execute] raises, the store is as it was. *)
Lemma execute_raise_store self state w e w' :
  execute self state w = Some (Raise e, w') → store w' = store w.
Proof.
  intros H. destruct (store w !! state) as [d|] eqn:Hd.
  - rewrite (execute_eq _ _ _ _ Hd) in H.
    destruct (py_iter _) as [chunks|e1]; [|by injection H as _ <-].
    destruct (for_chunks_effects self chunks [] (started self w))
      as (r & w1 & evs & Hrun & Hs & _ & _).
    rewrite Hrun in H. destruct r as [links|e1]; [|by injection H as _ <-].
    destruct (list_item _ _); [done|]. by injection H as _ <-.
  - unfold execute, bind, emit, dict_get in H. cbn [store] in H. by rewrite Hd in H.
Qed.

(** A state without the key [doc]: iterating over [None] raises a
    [TypeError], after the opening line is logged. *)
Lemma execute_missing_doc self state w d :
  store w !! state = Some d → d !! lit "doc" = None →
  execute self state w = Some (Raise TypeError, started self w).
Proof. intros Hd Hdoc. by rewrite (execute_eq _ _ _ _ Hd), Hdoc. Qed.

(** The regular expression adds strings only. *)
Lemma regex_links_strings chunks acc links :
  regex_links chunks acc = Ok links →
  Forall (λ v, ∃ s, v = VStr s) acc → Forall (λ v, ∃ s, v = VStr s) links.
Proof.
  revert acc. induction chunks as [|chunk rest IH]; intros acc H Hacc.
  - by injection H as <-.
  - cbn [regex_links] in H. destruct (chunk_links chunk) as [ls|e]; [|done].
    apply (IH _ H). apply Forall_app. split; [done|].
    apply Forall_fmap, Forall_true. intros s. by exists s.
Qed.

(** A run of [execute] that records no fallback event does what
    [regex_outcome] says, and its loop raised no [Exception]. *)
Lemma execute_regex_only self state w d r w' :
  store w !! state = Some d →
  execute self state w = Some (r, w') → regex_only w w' →
  match regex_outcome self d with
  | Ok (key, links) =>
      r = Ok state ∧ store w' = <[state := <[key := VList links]> d]> (store w)
  | Raise e => r = Raise e ∧ store w' = store w
  end
  ∧ (∀ chunks e, py_iter (default VNone (d !! lit "doc")) = Ok chunks →
       regex_links chunks [] = Raise e → is_Exception e = false).
Proof.
  intros Hd H Hlog. rewrite (execute_eq _ _ _ _ Hd) in H. unfold regex_outcome.
  destruct (py_iter _) as [chunks|e]; [|by injection H as <- <-].
  destruct (for_chunks_effects self chunks [] (started self w))
    as (r1 & w1 & evs & Hrun & Hs & Hl & _).
  rewrite Hrun in H.
  assert (log w' = log w1) as Hw'.
  { destruct r1; [destruct (list_item _ _)|]; by injection H as _ <-. }
  assert (regex_only (started self w) w1) as Hlog1.
  { apply (regex_only_app _ _ _ Hl).
    unfold regex_only, events_since in Hlog. rewrite Hw', Hl in Hlog.
    cbn [started log] in Hlog. rewrite <- app_assoc, drop_app_length in Hlog.
    by apply Forall_cons in Hlog as [_ Hlog]. }
  destruct (for_chunks_regex_only _ _ _ _ _ _ Hrun Hlog1) as (-> & -> & Hexc).
  split.
  - destruct (regex_links chunks []) as [links|e]; [|by injection H as <- <-].
    destruct (list_item _ _) as [key|e]; by injection H as <- <-.
  - intros chunks' e [= <-] He. apply Hexc. by rewrite He.
Qed.

(** The input selector plays no part in [execute]. *)
Lemma for_chunks_ignores_input self selector chunks acc w :
  for_chunks (with_input self selector) chunks acc w = for_chunks self chunks acc w.
Proof.
  revert acc w. induction chunks as [|chunk rest IH]; intros acc w; [reflexivity|].
  cbn [for_chunks]. unfold bind.
  change (process_chunk (with_input self selector) acc chunk w)
    with (process_chunk self acc chunk w).
  destruct (process_chunk self acc chunk w) as [[[acc'|e] w1]|]; [apply IH|done..].
Qed.

Lemma execute_ignores_input self selector state w :
  execute (with_input self selector) state w = execute self state w.
Proof.
  unfold execute, bind. cbn [with_input base node_name output verbose].
  destruct (emit _ w) as [[[[]|e] w0]|]; [|done..].
  destruct (dict_get _ _ w0) as [[[v|e] w1]|]; [|done..].
  destruct (lift _ w1) as [[[chunks|e] w2]|]; [|done..].
  by rewrite for_chunks_ignores_input.
Qed.

(** ** The claims *)

(** C1. When every chunk of the state's sequence holds a string, the list
    [execute] writes is the concatenation, chunk by chunk and match by
    match, of what the regular expression finds in each content; only the
    opening line is logged, so the fallback is never entered and the
    chain never called. *)
Theorem execute_string_chunks self state w d texts key :
  store w !! state = Some d →
  d !! lit "doc" = Some (VList ((λ s, VChunk (AStr s)) <$> texts)) →
  output (base self) !! O = Some key →
  ∃ w',
    execute self state w = Some (Ok state, w')
    ∧ store w' = <[state := <[key := VList (VStr <$> concat (re.findall url_pattern <$> texts))]> d]> (store w)
    ∧ log w' = log (started self w)
    ∧ regex_only w w'.
Proof.
  intros Hd Hdoc Hkey. rewrite (execute_eq _ _ _ _ Hd), Hdoc.
  change (default VNone (Some ?v)) with v. cbn [py_iter].
  rewrite for_chunks_strings.
  unfold list_item. rewrite Hkey. eexists. split; [reflexivity|].
  cbn [store log app]. split_and!; [done..|].
  unfold regex_only, events_since. cbn [log started].
  rewrite drop_app_length. by repeat constructor.
Qed.

Lemma execute_string_chunks_witness :
  ∃ w',
    execute stub_node 1%positive (world_of two_chunks) = Some (Ok 1%positive, w')
    ∧ store w' = <[1%positive := <[lit "links" := VList (VStr <$> concat (re.findall url_pattern <$>
                     [lit "Visit https://a.com/x and http://b.org"; lit "No links here"]))]> two_chunks]>
                   (store (world_of two_chunks))
    ∧ log w' = log (started stub_node (world_of two_chunks))
    ∧ regex_only (world_of two_chunks) w'.
Proof.
  apply (execute_string_chunks stub_node 1%positive (world_of two_chunks) two_chunks
           [lit "Visit https://a.com/x and http://b.org"; lit "No links here"] (lit "links"));
    reflexivity.
Defined.

(** The scenario of the specification: two chunks, the second without a
    link; the two links of the first are written in order and nothing but
    the opening line is logged. *)
Example execute_two_chunks :
  execute stub_node 1%positive (world_of two_chunks) = Some (Ok 1%positive, two_chunks_done).
Proof. vm_compute. reflexivity. Qed.

(** C2, as stated, fails: on the empty state, where the input key is
    absent, [execute] raises a plain [TypeError], the fault of iterating
    over [None], and not an error of a kind of its own. *)
Lemma missing_doc_type_error :
  execute stub_node 1%positive (world_of ∅) =
    Some (Raise TypeError, {| store := {[ 1%positive := ∅ ]}; log := started_log |})
  ∧ generic_fault TypeError = true.
Proof. split; [|reflexivity]. by rewrite (execute_missing_doc _ _ _ ∅). Qed.

(** C2, amended. For a node whose input key is the conventional [doc] and
    a state in which that key is absent, [execute] raises, and what it
    leaves is the store it found: the state mapping is unmodified and no
    output key is written. *)
Theorem missing_input_fails self state w d :
  store w !! state = Some d →
  input (base self) = lit "doc" →
  d !! input (base self) = None →
  ∃ e w', execute self state w = Some (Raise e, w')
          ∧ store w' = store w
          ∧ store w' !! state = Some d.
Proof.
  intros Hd Hinput Hdoc. rewrite Hinput in Hdoc.
  exists TypeError, (started self w).
  by rewrite (execute_missing_doc _ _ _ _ Hd Hdoc).
Qed.

Lemma missing_input_fails_witness :
  ∃ e w', execute stub_node 1%positive (world_of ∅) = Some (Raise e, w')
          ∧ store w' = store (world_of ∅)
          ∧ store w' !! 1%positive = Some ∅.
Proof.
  apply (missing_input_fails stub_node 1%positive (world_of ∅) ∅); reflexivity.
Defined.

(** C3, as stated, fails: a chunk whose content is the number 12345 is
    turned into the text 12345 by [str], the regular expression finds
    nothing in it, and [execute] writes the empty list without entering
    the fallback or calling the stub client. *)
Lemma number_content_no_fallback :
  execute stub_node 1%positive (world_of (doc_of [AInt 12345])) =
    Some (Ok 1%positive,
          {| store := {[ 1%positive := <[lit "links" := VList []]> (doc_of [AInt 12345]) ]};
             log := started_log |})
  ∧ VList [] ≠ VList [VStr (lit "https://stub.example")]
  ∧ Forall (λ ev, is_fallback_event ev = false) started_log.
Proof. split_and!; [by vm_compute | discriminate | by repeat constructor]. Qed.

(** C3, amended. The content of a chunk that is not a string goes through
    [str]: when [str] returns, the regular expression runs over its text
    and nothing is logged or asked; when [str] raises an [Exception], the
    fallback logs it and the chain is invoked once, with the content of
    the chunk as its argument, and its answer is appended.  For the chunk
    holding 12345 the list written is empty and no fallback is logged. *)
Theorem non_string_content self acc c w :
  (∀ s, c ≠ AStr s) →
  (∀ text, py_str c = Ok text →
     process_chunk self acc (VChunk c) w =
       Some (Ok (acc ++ (VStr <$> re.findall url_pattern text)), w))
  ∧ (∀ e run, py_str c = Raise e → is_Exception e = true →
       llm_model self = VClient run →
       process_chunk self acc (VChunk c) w =
         Some (match run (log w ++ [LogError e]) merge_prompt [(lit "content", c)] with
               | Ok answer =>
                   match py_iter answer with
                   | Ok items => Ok (acc ++ items)
                   | Raise e' => Raise e'
                   end
               | Raise e' => Raise e'
               end,
               {| store := store w;
                  log := log w ++ [LogError e; ChainInvoke merge_prompt [(lit "content", c)]] |}))
  ∧ execute stub_node 1%positive (world_of (doc_of [AInt 12345])) =
      Some (Ok 1%positive,
            {| store := {[ 1%positive := <[lit "links" := VList []]> (doc_of [AInt 12345]) ]};
               log := started_log |}).
Proof.
  intros _. split_and!.
  - intros text Htext. rewrite process_chunk_eq.
    cbn [chunk_links get_page_content]. by rewrite Htext.
  - intros e run Hstr He Hrun. rewrite process_chunk_eq.
    cbn [chunk_links get_page_content]. rewrite Hstr, He.
    unfold fallback, bind, emit, lift, invoke, ret. rewrite Hrun.
    cbn [pipe get_page_content store log]. rewrite <- app_assoc. cbn [app].
    destruct (run _ _ _) as [answer|e']; [|reflexivity].
    destruct (py_iter answer); reflexivity.
  - by vm_compute.
Qed.

Lemma non_string_content_witness :
  (∀ text, py_str unprintable = Ok text →
     process_chunk stub_node [] (VChunk unprintable) (world_of ∅) =
       Some (Ok ([] ++ (VStr <$> re.findall url_pattern text)), world_of ∅))
  ∧ (∀ e run, py_str unprintable = Raise e → is_Exception e = true →
       llm_model stub_node = VClient run →
       process_chunk stub_node [] (VChunk unprintable) (world_of ∅) =
         Some (match run (log (world_of ∅) ++ [LogError e]) merge_prompt [(lit "content", unprintable)] with
               | Ok answer =>
                   match py_iter answer with
                   | Ok items => Ok ([] ++ items)
                   | Raise e' => Raise e'
                   end
               | Raise e' => Raise e'
               end,
               {| store := store (world_of ∅);
                  log := log (world_of ∅) ++ [LogError e; ChainInvoke merge_prompt [(lit "content", unprintable)]] |}))
  ∧ execute stub_node 1%positive (world_of (doc_of [AInt 12345])) =
      Some (Ok 1%positive,
            {| store := {[ 1%positive := <[lit "links" := VList []]> (doc_of [AInt 12345]) ]};
               log := started_log |}).
Proof.
  apply (non_string_content stub_node [] unprintable (world_of ∅)).
  intros s. discriminate.
Defined.

(** With the stub client, the chunk whose [str] raises is answered by the
    chain: the stub's link is written and a fallback is logged. *)
Example execute_unprintable :
  execute stub_node 1%positive (world_of (doc_of [unprintable])) =
    Some (Ok 1%positive,
          {| store := {[ 1%positive :=
                <[lit "links" := VList [VStr (lit "https://stub.example")]]> (doc_of [unprintable]) ]};
             log := started_log ++
                    [LogError (OtherException "ValueError");
                     ChainInvoke merge_prompt [(lit "content", unprintable)]] |}).
Proof. by vm_compute. Qed.

(** C4. When the chunks before some chunk went through, the [try] body
    raised on that chunk, and the fallback for it raises in turn (the
    chain call, the parsing inside it, or the appending of an answer that
    cannot be iterated), [execute] raises that same exception, processes
    no further chunk, and leaves the store as it was: no output key is
    written. *)
Theorem fallback_failure_aborts self state w d pre chunk post acc w1 e0 w1' e w2 :
  store w !! state = Some d →
  py_iter (default VNone (d !! lit "doc")) = Ok (pre ++ chunk :: post) →
  for_chunks self pre [] (started self w) = Some (Ok acc, w1) →
  extract acc chunk w1 = Some (Raise e0, w1') →
  is_Exception e0 = true →
  fallback self acc chunk e0 w1' = Some (Raise e, w2) →
  execute self state w = Some (Raise e, w2)
  ∧ store w2 = store w
  ∧ store w2 !! state = Some d.
Proof.
  intros Hd Hiter Hpre Htry He0 Hfb.
  assert (execute self state w = Some (Raise e, w2)) as Hrun.
  { rewrite (execute_eq _ _ _ _ Hd), Hiter, for_chunks_app, Hpre.
    cbn [for_chunks]. unfold bind, process_chunk, try_except.
    by rewrite Htry, He0, Hfb. }
  pose proof (execute_raise_store _ _ _ _ _ Hrun) as Hs.
  by rewrite Hs.
Qed.

Lemma fallback_failure_aborts_witness :
  execute number_node 1%positive (world_of three_chunks)
  = Some (Raise TypeError, three_chunks_failed)
  ∧ store three_chunks_failed = store (world_of three_chunks)
  ∧ store three_chunks_failed !! 1%positive = Some three_chunks.
Proof.
  apply (fallback_failure_aborts number_node 1%positive (world_of three_chunks)
           three_chunks
           [VChunk (AStr (lit "http://a.com"))] (VChunk unprintable)
           [VChunk (AStr (lit "http://b.org"))]
           [VStr (lit "http://a.com")] three_chunks_started
           (OtherException "ValueError") three_chunks_started TypeError);
    by vm_compute.
Defined.

(** An answer that is a string is not refused: its characters are
    appended one by one. *)
Example string_answer_is_spread :
  execute (node_for (lit "doc") string_client) 1%positive (world_of (doc_of [unprintable])) =
    Some (Ok 1%positive,
          {| store := {[ 1%positive :=
                <[lit "links" := VList [VStr (lit "a"); VStr (lit "b")]]> (doc_of [unprintable]) ]};
             log := started_log ++
                    [LogError (OtherException "ValueError");
                     ChainInvoke merge_prompt [(lit "content", unprintable)]] |}).
Proof. by vm_compute. Qed.

(** C5. When [execute] returns, it returns the reference it was given; the
    mapping behind it holds the list the loop accumulated under the first
    output key, whatever was there before; its other keys and the other
    objects of the store are as they were. *)
Theorem execute_writes_first_output_key self state w d r w' :
  store w !! state = Some d →
  execute self state w = Some (Ok r, w') →
  ∃ key chunks links,
    output (base self) !! O = Some key
    ∧ py_iter (default VNone (d !! lit "doc")) = Ok chunks
    ∧ for_chunks self chunks [] (started self w)
      = Some (Ok links, {| store := store w; log := log w' |})
    ∧ r = state
    ∧ store w' = <[state := <[key := VList links]> d]> (store w)
    ∧ store w' !! state = Some (<[key := VList links]> d)
    ∧ (∀ k, k ≠ key → <[key := VList links]> d !! k = d !! k)
    ∧ (∀ l, l ≠ state → store w' !! l = store w !! l).
Proof.
  intros Hd H. rewrite (execute_eq _ _ _ _ Hd) in H.
  destruct (py_iter _) as [chunks|e]; [|done].
  destruct (for_chunks_effects self chunks [] (started self w))
    as (r1 & w1 & evs & Hrun & Hs & _ & _).
  rewrite Hrun in H. destruct r1 as [links|e]; [|done].
  unfold list_item in H. destruct (output (base self) !! O) as [key|] eqn:Hkey; [|done].
  injection H as <- <-. exists key, chunks, links. cbn [store log].
  split_and!; try done.
  - rewrite Hrun. destruct w1 as [s1 l1]. cbn in Hs |- *. by rewrite Hs.
  - apply lookup_insert_eq.
  - intros k Hk. by apply lookup_insert_ne.
  - intros l Hl. by apply lookup_insert_ne.
Qed.

Lemma execute_writes_first_output_key_witness :
  ∃ key chunks links,
    output (base stub_node) !! O = Some key
    ∧ py_iter (default VNone (stale !! lit "doc")) = Ok chunks
    ∧ for_chunks stub_node chunks [] (started stub_node (world_of stale))
      = Some (Ok links, {| store := store (world_of stale); log := log two_chunks_done |})
    ∧ 1%positive = 1%positive
    ∧ store two_chunks_done = <[1%positive := <[key := VList links]> stale]> (store (world_of stale))
    ∧ store two_chunks_done !! 1%positive = Some (<[key := VList links]> stale)
    ∧ (∀ k, k ≠ key → <[key := VList links]> stale !! k = stale !! k)
    ∧ (∀ l, l ≠ 1%positive → store two_chunks_done !! l = store (world_of stale) !! l).
Proof.
  apply (execute_writes_first_output_key stub_node 1%positive (world_of stale) stale
           1%positive two_chunks_done);
    by vm_compute.
Defined.

(** C6. For a chunk whose content has the text [text] under [str], the
    matches are exactly the links of the text read from the left: each
    one is a scheme [http://] or [https://] followed by one or more
    characters that are none of whitespace, the double quote, [<], [>]
    and the closing bracket, it goes on as far as such characters go, no
    link begins at a character passed over between two of them, and they
    come in the order of the text; the step returns the running list with
    these matches appended and records nothing. *)
Theorem extraction_collects_links self acc content text w :
  py_str content = Ok text →
  links_of text (re.findall url_pattern text)
  ∧ (∀ ms, links_of text ms → ms = re.findall url_pattern text)
  ∧ process_chunk self acc (VChunk content) w
    = Some (Ok (acc ++ (VStr <$> re.findall url_pattern text)), w).
Proof.
  intros Htext. split_and!.
  - apply links_of_findall.
  - apply links_of_unique.
  - rewrite process_chunk_eq. cbn [chunk_links get_page_content]. by rewrite Htext.
Qed.

Lemma extraction_collects_links_witness :
  links_of (lit "[https://c.d] <http://e.f/g>")
           (re.findall url_pattern (lit "[https://c.d] <http://e.f/g>"))
  ∧ (∀ ms, links_of (lit "[https://c.d] <http://e.f/g>") ms →
           ms = re.findall url_pattern (lit "[https://c.d] <http://e.f/g>"))
  ∧ process_chunk stub_node [VStr (lit "http://a.b")]
      (VChunk (AStr (lit "[https://c.d] <http://e.f/g>"))) (world_of ∅)
    = Some (Ok ([VStr (lit "http://a.b")]
                ++ (VStr <$> re.findall url_pattern (lit "[https://c.d] <http://e.f/g>"))),
            world_of ∅).
Proof.
  apply (extraction_collects_links stub_node [VStr (lit "http://a.b")]
           (AStr (lit "[https://c.d] <http://e.f/g>"))
           (lit "[https://c.d] <http://e.f/g>") (world_of ∅)).
  reflexivity.
Defined.

(** C7. Take a run of [execute] that records no fallback event.  A second
    run on a state with the same content, wherever it starts, comes back,
    and if it records no fallback event either it ends the same way and
    leaves the same mapping; so does a second run on the state the first
    one left behind.  What is written depends on the state alone: the
    node carries nothing from one run to the next. *)
Theorem regex_only_rerun self state d w r1 w1 :
  store w !! state = Some d →
  execute self state w = Some (r1, w1) → regex_only w w1 →
  (∀ v, store v !! state = Some d →
     ∃ r2 v2, execute self state v = Some (r2, v2)
       ∧ (regex_only v v2 → r2 = r1 ∧ store v2 !! state = store w1 !! state))
  ∧ (∃ r2 w2, execute self state w1 = Some (r2, w2)
       ∧ (regex_only w1 w2 → r2 = r1 ∧ store w2 !! state = store w1 !! state)).
Proof.
  intros Hd Hrun Hlog.
  destruct (execute_regex_only _ _ _ _ _ _ Hd Hrun Hlog) as [Hout _].
  assert (∀ v d', store v !! state = Some d' →
            ∃ r2 v2, execute self state v = Some (r2, v2)) as Htotal.
  { intros v d' Hv. rewrite (execute_eq _ _ _ _ Hv).
    destruct (py_iter _) as [chunks|e]; [|by eexists _, _].
    destruct (for_chunks_effects self chunks [] (started self v))
      as (r & v1 & evs & -> & _).
    destruct r; [destruct (list_item _ _)|]; by eexists _, _. }
  assert (∀ v, store v !! state = Some d →
     ∃ r2 v2, execute self state v = Some (r2, v2)
       ∧ (regex_only v v2 → r2 = r1 ∧ store v2 !! state = store w1 !! state)) as Hsame.
  { intros v Hv. destruct (Htotal v d Hv) as (r2 & v2 & Hrun2).
    exists r2, v2. split; [done|]. intros Hlog2.
    destruct (execute_regex_only _ _ _ _ _ _ Hv Hrun2 Hlog2) as [Hout2 _].
    destruct (regex_outcome self d) as [[key links]|e].
    - destruct Hout as [-> ->], Hout2 as [-> ->]. by rewrite !lookup_insert_eq.
    - destruct Hout as [-> ->], Hout2 as [-> ->]. by rewrite Hd, Hv. }
  split; [exact Hsame|].
  destruct (regex_outcome self d) as [[key links]|e] eqn:Hreg.
  2:{ destruct Hout as [-> Hs]. apply Hsame. by rewrite Hs. }
  destruct Hout as [-> Hs].
  assert (store w1 !! state = Some (<[key := VList links]> d)) as Hd1.
  { rewrite Hs. apply lookup_insert_eq. }
  destruct (Htotal w1 _ Hd1) as (r2 & w2 & Hrun2).
  exists r2, w2. split; [done|]. intros Hlog2.
  destruct (execute_regex_only _ _ _ _ _ _ Hd1 Hrun2 Hlog2) as [Hout2 Hexc2].
  assert (regex_outcome self (<[key := VList links]> d) = Ok (key, links)) as Hreg2.
  { unfold regex_outcome in Hreg |- *.
    destruct (py_iter (default VNone (d !! lit "doc"))) as [chunks|e] eqn:Hiter; [|done].
    destruct (regex_links chunks []) as [links'|e] eqn:Hlinks; [|done].
    destruct (list_item _ _) as [key'|e]; [|done].
    injection Hreg as -> ->.
    destruct (decide (key = lit "doc")) as [->|Hne].
    - rewrite lookup_insert_eq in Hexc2 |- *. cbn [default py_iter] in Hexc2 |- *.
      apply regex_links_strings in Hlinks; [|constructor].
      destruct Hlinks as [|v links [s ->] _]; [done|].
      by specialize (Hexc2 _ AttributeError eq_refl eq_refl).
    - rewrite lookup_insert_ne by done. by rewrite Hiter, Hlinks. }
  rewrite Hreg2 in Hout2. destruct Hout2 as [-> ->].
  split; [done|]. by rewrite Hd1, lookup_insert_eq, insert_insert_eq.
Qed.

Lemma regex_only_rerun_witness :
  (∀ v, store v !! 1%positive = Some two_chunks →
     ∃ r2 v2, execute stub_node 1%positive v = Some (r2, v2)
       ∧ (regex_only v v2 →
          r2 = Ok 1%positive ∧ store v2 !! 1%positive = store two_chunks_done !! 1%positive))
  ∧ (∃ r2 w2, execute stub_node 1%positive two_chunks_done = Some (r2, w2)
       ∧ (regex_only two_chunks_done w2 →
          r2 = Ok 1%positive ∧ store w2 !! 1%positive = store two_chunks_done !! 1%positive)).
Proof.
  apply (regex_only_rerun stub_node 1%positive two_chunks (world_of two_chunks)
           (Ok 1%positive) two_chunks_done).
  - reflexivity.
  - vm_compute. reflexivity.
  - vm_compute. repeat constructor.
Defined.

Example init_stub_node :
  init BaseNode_init (lit "doc") [lit "links"] (Some stub_config) default_node_name
  = Ok stub_node.
Proof. reflexivity. Qed.

Example init_parsed_doc :
  init BaseNode_init (lit "parsed_doc") [lit "links"] (Some stub_config) default_node_name
  = Ok (node_for (lit "parsed_doc") stub_client).
Proof. reflexivity. Qed.

(** C8. A node built with the input selector [parsed_doc], run on a state
    that holds chunks under [parsed_doc] and under [doc], writes the link
    of the chunk under [doc]: the key it reads is fixed. *)
Theorem execute_reads_fixed_key :
  execute (node_for (lit "parsed_doc") stub_client) 1%positive (world_of two_keys) =
    Some (Ok 1%positive,
          {| store := {[ 1%positive := <[lit "links" := VList [VStr (lit "http://b.org")]]> two_keys ]};
             log := started_log |}).
Proof. vm_compute. reflexivity. Qed.



(** C10. Without a configuration, construction raises, whatever the base
    class does with its arguments; a construction that returns a node was
    given a configuration with the key [llm_model], whose value the node
    holds: the default of [verbose] for a missing configuration is never
    reached. *)
Theorem init_needs_llm_model
    (base_init : pystr → pystr → pystr → list pystr → Z → option config → result base_node)
    (input : pystr) (output : list pystr) (node_name : pystr) :
  (∃ e, init base_init input output None node_name = Raise e)
  ∧ (∀ node_config self,
       init base_init input output node_config node_name = Ok self →
       ∃ c llm, node_config = Some c ∧ c !! lit "llm_model" = Some llm
                ∧ llm_model self = llm
                ∧ verbose self = default VFalse (c !! lit "verbose")).
Proof.
  split.
  - unfold init. destruct (base_init _ _ _ _ _ _) as [b|e]; [|by exists e].
    by exists TypeError.
  - intros node_config self. unfold init.
    destruct (base_init _ _ _ _ _ _) as [b|e]; [|done].
    destruct node_config as [c|]; [|done]. cbn [config_item].
    destruct (c !! lit "llm_model") as [llm|] eqn:Hllm; [|done].
    intros [= <-]. by exists c, llm.
Qed.

Lemma init_needs_llm_model_witness :
  (∃ e, init BaseNode_init (lit "doc") [lit "links"] None default_node_name = Raise e)
  ∧ (∃ c llm, Some stub_config = Some c ∧ c !! lit "llm_model" = Some llm
              ∧ llm_model stub_node = llm
              ∧ verbose stub_node = default VFalse (c !! lit "verbose")).
Proof.
  destruct (init_needs_llm_model BaseNode_init (lit "doc") [lit "links"] default_node_name)
    as [Hnone Hsome].
  split; [exact Hnone|].
  apply (Hsome (Some stub_config) stub_node). reflexivity.
Defined.

(** Without a configuration the subscript on [None] is what raises. *)
Example init_without_config :
  init BaseNode_init (lit "doc") [lit "links"] None default_node_name = Raise TypeError.
Proof. reflexivity. Qed.

(** A configuration without the key [llm_model] raises a [KeyError]. *)
Example init_without_llm_model :
  init BaseNode_init (lit "doc") [lit "links"] (Some {[ lit "verbose" := VAtom (ABool true) ]})
       default_node_name = Raise KeyError.
Proof. reflexivity. Qed.

(** * Further properties *)

(** ** Further properties of the extraction *)

(** The characters of both schemes are link characters. *)
Lemma is_link_chars m : is_link m → Forall (λ c, link_char c = true) m.
Proof.
  intros (body & [-> | ->] & _ & Hall); apply Forall_app; (split; [|done]);
    by repeat constructor.
Qed.

Lemma is_link_head m : is_link m → ∃ m', m = 104 :: m'.
Proof. intros (body & [-> | ->] & _); by eexists. Qed.

(** A run of link characters that is a prefix of a text with a separator
    lies before the separator. *)
Lemma link_chars_before m rest a sep b :
  Forall (λ c, link_char c = true) m → link_char sep = false →
  m ++ rest = a ++ sep :: b → ∃ rest', a = m ++ rest'.
Proof.
  intros Hm Hsep. revert a. induction Hm as [|c m Hc _ IH]; intros a H.
  - by exists a.
  - destruct a as [|x a]; cbn in H.
    + injection H as -> _. congruence.
    + injection H as <- H. destruct (IH _ H) as [rest' ->]. by exists rest'.
Qed.

Lemma links_of_split s1 sep s2 ms1 ms2 :
  link_char sep = false →
  links_of s1 ms1 → links_of s2 ms2 →
  links_of (s1 ++ sep :: s2) (ms1 ++ ms2).
Proof.
  intros Hsep H1 H2.
  induction H1 as [|c s ms Hno _ IH|m rest ms Hm Hrest _ IH]; cbn [app].
  - apply links_skip; [|done].
    intros (m & rest & Heq & Hm). destruct (is_link_head _ Hm) as [m' ->].
    injection Heq as ->. by vm_compute in Hsep.
  - apply links_skip; [|done].
    intros (m & rest & Heq & Hm). apply Hno.
    destruct (link_chars_before m rest (c :: s) sep s2 (is_link_chars _ Hm) Hsep)
      as [rest' Hrest']; [done|].
    by exists m, rest'.
  - rewrite <- app_assoc. apply links_take; [done| |done].
    destruct rest; [exact Hsep | exact Hrest].
Qed.

(** Splitting a text at a character that is no link character splits its
    matches. *)
Lemma findall_split s1 sep s2 :
  link_char sep = false →
  re.findall url_pattern (s1 ++ sep :: s2)
  = re.findall url_pattern s1 ++ re.findall url_pattern s2.
Proof.
  intros Hsep. symmetry. apply links_of_unique.
  apply links_of_split; [done | apply links_of_findall..].
Qed.

(** A link is the one match of itself. *)
Lemma findall_link m : is_link m → re.findall url_pattern m = [m].
Proof.
  intros Hm. pose proof (match_link m [] Hm I) as H. rewrite app_nil_r in H.
  rewrite (re_findall_match _ _ H). by rewrite firstn_all, drop_all.
Qed.

Lemma findall_links ms :
  Forall is_link ms → concat (re.findall url_pattern <$> ms) = ms.
Proof.
  induction 1 as [|m ms Hm _ IH]; [done|].
  cbn [fmap list_fmap concat]. change (list_fmap _ _ ?f ?l) with (f <$> l).
  by rewrite findall_link, IH.
Qed.

(** The matches are pieces of the text that do not overlap: together
    they are no longer than the text. *)
Lemma links_of_length s ms : links_of s ms → (length (concat ms) ≤ length s)%nat.
Proof.
  induction 1; cbn [concat length]; [lia | lia |].
  rewrite !length_app. lia.
Qed.

(** No match means that no link begins anywhere in the text. *)
Lemma links_of_nil s :
  links_of s [] ↔ ∀ pre post, s = pre ++ post → ¬ link_at_head post.
Proof.
  split.
  - intros H. remember [] as ms eqn:Hms.
    induction H as [|c s ms Hno _ IH|]; [| |done].
    + intros pre post Heq. symmetry in Heq. apply app_eq_nil in Heq as [_ ->].
      intros (m & rest & Heq & Hm). destruct (is_link_head _ Hm) as [m' ->]. done.
    + intros pre post Heq. destruct pre as [|x pre]; cbn in Heq.
      * by subst post.
      * injection Heq as _ Heq. by apply (IH Hms pre).
  - induction s as [|c s IH]; intros H; [constructor|].
    apply links_skip; [by apply (H []) |].
    apply IH. intros pre post ->. by apply (H (c :: pre)).
Qed.




(** ** Further properties of the loop and of [execute] *)

(** Chunks the regular expression handles go through the loop without a
    trace. *)
Lemma regex_links_for_chunks self chunks acc links w :
  regex_links chunks acc = Ok links →
  for_chunks self chunks acc w = Some (Ok links, w).
Proof.
  revert acc. induction chunks as [|chunk rest IH]; intros acc H.
  - by injection H as <-.
  - cbn [regex_links for_chunks] in *. unfold bind. rewrite process_chunk_eq.
    destruct (chunk_links chunk) as [ls|e]; [by apply IH | done].
Qed.

(** The events of one fallback: the logged cause, then at most one call
    of the chain. *)
Lemma fallback_calls self acc chunk e w :
  ∃ r w' evs,
    fallback self acc chunk e w = Some (r, w')
    ∧ log w' = log w ++ LogError e :: evs
    ∧ (evs = [] ∨ ∃ p args, evs = [ChainInvoke p args])
    ∧ (∀ links, r = Ok links → ∃ items, links = acc ++ items).
Proof.
  unfold fallback, bind, emit, lift, invoke, ret.
  destruct (pipe (llm_model self)) as [run|e1]; cbn [store log].
  2:{ eexists _, _, []. split_and!; [reflexivity..|by left|done]. }
  destruct (get_page_content chunk) as [c|e1].
  2:{ eexists _, _, []. split_and!; [reflexivity..|by left|done]. }
  destruct (run _ _ _) as [answer|e2]; cbn [store log].
  2:{ eexists _, _, [_]. split_and!; [reflexivity|by rewrite <- app_assoc|right; by eexists _, _|done]. }
  destruct (py_iter answer) as [items|e3]; eexists _, _, [_];
    (split_and!; [reflexivity|by rewrite <- app_assoc|right; by eexists _, _|]).
  - intros links [= <-]. by exists items.
  - done.
Qed.

Lemma process_chunk_calls self acc chunk w :
  ∃ r w' evs,
    process_chunk self acc chunk w = Some (r, w')
    ∧ log w' = log w ++ evs
    ∧ (length (List.filter is_chain_call evs)
       ≤ length (List.filter is_log_error evs) ≤ 1)%nat
    ∧ (∀ links, r = Ok links → ∃ items, links = acc ++ items).
Proof.
  rewrite process_chunk_eq. destruct (chunk_links chunk) as [ls|e].
  - eexists _, _, []. split_and!; [reflexivity|by rewrite app_nil_r|cbn; lia..|].
    intros links [= <-]. by eexists.
  - destruct (is_Exception e).
    + destruct (fallback_calls self acc chunk e w) as (r & w' & evs & -> & Hl & Hev & Hr).
      eexists _, _, _. split_and!; [reflexivity|exact Hl| | |exact Hr];
        destruct Hev as [-> | (p & args & ->)]; cbn; lia.
    + eexists _, _, []. split_and!; [reflexivity|by rewrite app_nil_r|cbn; lia..|done].
Qed.

Lemma for_chunks_calls self chunks acc w :
  ∃ r w' evs,
    for_chunks self chunks acc w = Some (r, w')
    ∧ log w' = log w ++ evs
    ∧ (length (List.filter is_chain_call evs)
       ≤ length (List.filter is_log_error evs) ≤ length chunks)%nat
    ∧ (∀ links, r = Ok links → ∃ items, links = acc ++ items).
Proof.
  revert acc w. induction chunks as [|chunk rest IH]; intros acc w.
  - eexists _, _, []. split_and!; [reflexivity|by rewrite app_nil_r|cbn; lia..|].
    intros links [= <-]. exists []. by rewrite app_nil_r.
  - cbn [for_chunks]. unfold bind.
    destruct (process_chunk_calls self acc chunk w) as (r1 & w1 & evs1 & -> & Hl1 & Hn1 & Hr1).
    destruct r1 as [acc'|e].
    + destruct (IH acc' w1) as (r2 & w2 & evs2 & -> & Hl2 & Hn2 & Hr2).
      eexists _, _, (evs1 ++ evs2). split_and!; [reflexivity| | | |].
      * by rewrite Hl2, Hl1, app_assoc.
      * rewrite !List.filter_app, !length_app. lia.
      * rewrite !List.filter_app, !length_app. cbn [length]. lia.
      * intros links ->. destruct (Hr1 _ eq_refl) as [items1 ->].
        destruct (Hr2 _ eq_refl) as [items2 ->]. exists (items1 ++ items2).
        by rewrite app_assoc.
    + eexists _, _, evs1. split_and!; [reflexivity|exact Hl1| | |done]; cbn [length]; lia.
Qed.

(** The loop reads the log and never the store. *)
Lemma for_chunks_store self chunks acc s w :
  for_chunks self chunks acc (with_store s w)
  = (λ '(r, w'), (r, with_store s w')) <$> for_chunks self chunks acc w.
Proof.
  revert acc w. induction chunks as [|chunk rest IH]; intros acc w; [reflexivity|].
  cbn [for_chunks]. unfold bind. rewrite !process_chunk_eq.
  destruct (chunk_links chunk) as [ls|e]; [apply IH|].
  destruct (is_Exception e); [|reflexivity].
  unfold fallback, bind, emit, lift, invoke, ret. cbn [with_store store log].
  destruct (pipe (llm_model self)) as [run|e1]; [|reflexivity].
  destruct (get_page_content chunk) as [c|e1]; [|reflexivity].
  cbn [store log].
  destruct (run _ _ _) as [answer|e2]; [|reflexivity].
  destruct (py_iter answer) as [items|e3]; [|reflexivity].
  apply (IH _ {| store := store w; log := _ |}).
Qed.

(** X1. An element of the sequence that has no [page_content], coming after
    chunks the regular expression handled, makes the [try] body raise
    [AttributeError]; the fallback logs it and raises before the chain is
    invoked ([AttributeError] again when the client composes, the
    [TypeError] of the composition otherwise); [execute] raises that and
    the store is as it was. *)
Theorem chunk_without_content_aborts self state w d pre chunk post acc :
  store w !! state = Some d →
  py_iter (default VNone (d !! lit "doc")) = Ok (pre ++ chunk :: post) →
  regex_links pre [] = Ok acc →
  (∀ c, chunk ≠ VChunk c) →
  execute self state w =
    Some (Raise (match pipe (llm_model self) with
                 | Ok _ => AttributeError
                 | Raise e => e
                 end),
          {| store := store w;
             log := log (started self w) ++ [LogError AttributeError] |}).
Proof.
  intros Hd Hiter Hpre Hchunk.
  rewrite (execute_eq _ _ _ _ Hd), Hiter, for_chunks_app.
  rewrite (regex_links_for_chunks _ _ _ _ _ Hpre).
  cbn [for_chunks]. unfold bind. rewrite process_chunk_eq.
  assert (get_page_content chunk = Raise AttributeError) as Hget.
  { destruct chunk as [| |c|]; try reflexivity. by destruct (Hchunk c). }
  unfold chunk_links. rewrite Hget. cbn [is_Exception].
  unfold fallback, bind, emit, lift. cbn [store log started].
  destruct (pipe (llm_model self)); [by rewrite Hget | done].
Qed.

Lemma chunk_without_content_aborts_witness :
  execute stub_node 1%positive
          (world_of mixed_doc)
  = Some (Raise (match pipe (llm_model stub_node) with
                 | Ok _ => AttributeError
                 | Raise e => e
                 end),
          {| store := store (world_of mixed_doc);
             log := log (started stub_node (world_of mixed_doc))
                    ++ [LogError AttributeError] |}).
Proof.
  apply (chunk_without_content_aborts stub_node 1%positive _
           mixed_doc
           [VChunk (AStr (lit "http://a.com"))] (VStr (lit "http://b.org")) []
           [VStr (lit "http://a.com")]);
    [reflexivity | reflexivity | by vm_compute | discriminate].
Defined.

(** X2. An exception of [str] that is no [Exception] is not caught: the
    fallback is not entered, nothing is logged for it, and [execute]
    raises it. *)
Theorem base_exception_not_caught self state w d pre c post acc e :
  store w !! state = Some d →
  py_iter (default VNone (d !! lit "doc")) = Ok (pre ++ VChunk c :: post) →
  regex_links pre [] = Ok acc →
  py_str c = Raise e → is_Exception e = false →
  execute self state w = Some (Raise e, started self w).
Proof.
  intros Hd Hiter Hpre Hstr He.
  rewrite (execute_eq _ _ _ _ Hd), Hiter, for_chunks_app.
  rewrite (regex_links_for_chunks _ _ _ _ _ Hpre).
  cbn [for_chunks]. unfold bind. rewrite process_chunk_eq.
  cbn [chunk_links get_page_content]. by rewrite Hstr, He.
Qed.

Lemma base_exception_not_caught_witness :
  execute stub_node 1%positive
          (world_of interrupted_doc)
  = Some (Raise (BaseOnly "KeyboardInterrupt"),
          started stub_node (world_of interrupted_doc)).
Proof.
  apply (base_exception_not_caught stub_node 1%positive _
           interrupted_doc
           [] (interrupting) [] []);
    reflexivity.
Defined.

(** X3. A node without an output key never writes: [execute] goes through
    all the chunks, calls of the chain included, and then raises; it
    raises [IndexError] when the loop went through. *)
Theorem empty_output_never_writes self state w d :
  store w !! state = Some d →
  output (base self) = [] →
  ∃ e w',
    execute self state w = Some (Raise e, w')
    ∧ store w' = store w
    ∧ (∀ chunks links w1,
         py_iter (default VNone (d !! lit "doc")) = Ok chunks →
         for_chunks self chunks [] (started self w) = Some (Ok links, w1) →
         e = IndexError ∧ w' = w1).
Proof.
  intros Hd Hout. rewrite (execute_eq _ _ _ _ Hd), Hout. cbn [list_item lookup].
  destruct (py_iter _) as [chunks|e].
  2:{ eexists _, _. split_and!; [reflexivity..|]. intros ??? [=]. }
  destruct (for_chunks_effects self chunks [] (started self w))
    as (r & w1 & evs & Hrun & Hs & _ & _).
  rewrite Hrun. destruct r as [links|e].
  - exists IndexError, w1. split_and!; [reflexivity|exact Hs|].
    intros chunks' links' w2 [= <-] Hrun2. rewrite Hrun in Hrun2.
    by injection Hrun2 as _ <-.
  - exists e, w1. split_and!; [reflexivity|exact Hs|].
    intros chunks' links' w2 [= <-] Hrun2. by rewrite Hrun in Hrun2.
Qed.

Lemma empty_output_never_writes_witness :
  ∃ e w',
    execute no_output_node 1%positive (world_of two_chunks)
    = Some (Raise e, w')
    ∧ store w' = store (world_of two_chunks)
    ∧ (∀ chunks links w1,
         py_iter (default VNone (two_chunks !! lit "doc")) = Ok chunks →
         for_chunks no_output_node chunks []
                    (started no_output_node (world_of two_chunks))
         = Some (Ok links, w1) →
         e = IndexError ∧ w' = w1).
Proof.
  apply (empty_output_never_writes
           no_output_node 1%positive (world_of two_chunks) two_chunks);
    reflexivity.
Defined.

(** X4. On a live state [execute] always comes back, and whatever the
    outcome, the other objects of the store and the other keys of the
    state are as they were; when it raises, for whatever reason, the whole
    store is as it was. *)
Theorem execute_frame self state w d :
  store w !! state = Some d →
  ∃ r w',
    execute self state w = Some (r, w')
    ∧ (∀ l, l ≠ state → store w' !! l = store w !! l)
    ∧ (∃ d', store w' !! state = Some d'
             ∧ ∀ k, output (base self) !! O ≠ Some k → d' !! k = d !! k)
    ∧ (∀ e, r = Raise e → store w' = store w).
Proof.
  intros Hd.
  assert (∀ e w1, store w1 = store w →
            (∀ l, l ≠ state → store w1 !! l = store w !! l)
            ∧ (∃ d', store w1 !! state = Some d'
                     ∧ ∀ k, output (base self) !! O ≠ Some k → d' !! k = d !! k)
            ∧ (∀ e', @Raise loc e = Raise e' → store w1 = store w)) as Hsame.
  { intros e w1 Hs. rewrite Hs. split_and!; [done| |done]. by exists d. }
  rewrite (execute_eq _ _ _ _ Hd).
  destruct (py_iter _) as [chunks|e]; [|eexists _, _; split; [reflexivity|by apply Hsame]].
  destruct (for_chunks_effects self chunks [] (started self w))
    as (r & w1 & evs & -> & Hs & _ & _).
  destruct r as [links|e]; [|eexists _, _; split; [reflexivity|by apply Hsame]].
  unfold list_item. destruct (output (base self) !! O) as [key|] eqn:Hkey;
    [|eexists _, _; split; [reflexivity|by apply Hsame]].
  eexists _, _. split; [reflexivity|]. cbn [store]. split_and!.
  - intros l Hl. by apply lookup_insert_ne.
  - eexists. split; [apply lookup_insert_eq|].
    intros k Hk. apply lookup_insert_ne. congruence.
  - done.
Qed.

Lemma execute_frame_witness :
  ∃ r w',
    execute number_node 1%positive (world_of three_chunks) = Some (r, w')
    ∧ (∀ l, l ≠ 1%positive → store w' !! l = store (world_of three_chunks) !! l)
    ∧ (∃ d', store w' !! 1%positive = Some d'
             ∧ ∀ k, output (base number_node) !! O ≠ Some k → d' !! k = three_chunks !! k)
    ∧ (∀ e, r = Raise e → store w' = store (world_of three_chunks)).
Proof.
  apply (execute_frame number_node 1%positive (world_of three_chunks) three_chunks).
  reflexivity.
Defined.

(** X5. The list [execute] writes for a sequence begins with what the
    loop accumulates over any front part of it: the links of earlier
    chunks come first and later chunks only append. *)
Theorem links_accumulate self state w d pre post r w' :
  store w !! state = Some d →
  py_iter (default VNone (d !! lit "doc")) = Ok (pre ++ post) →
  execute self state w = Some (Ok r, w') →
  ∃ key front w1 rest,
    output (base self) !! O = Some key
    ∧ for_chunks self pre [] (started self w) = Some (Ok front, w1)
    ∧ store w' !! state = Some (<[key := VList (front ++ rest)]> d).
Proof.
  intros Hd Hiter H. rewrite (execute_eq _ _ _ _ Hd), Hiter, for_chunks_app in H.
  destruct (for_chunks_calls self pre [] (started self w))
    as (r1 & w1 & evs1 & Hpre & _ & _ & _).
  rewrite Hpre in H. destruct r1 as [front|e]; [|done].
  destruct (for_chunks_calls self post front w1)
    as (r2 & w2 & evs2 & Hpost & _ & _ & Hext).
  rewrite Hpost in H. destruct r2 as [links|e]; [|done].
  destruct (Hext _ eq_refl) as [rest ->].
  unfold list_item in H. destruct (output (base self) !! O) as [key|]; [|done].
  injection H as _ <-. exists key, front, w1, rest.
  split_and!; [done..|]. cbn [store]. apply lookup_insert_eq.
Qed.

Lemma links_accumulate_witness :
  ∃ key front w1 rest,
    output (base stub_node) !! O = Some key
    ∧ for_chunks stub_node [VChunk (AStr (lit "Visit https://a.com/x and http://b.org"))] []
        (started stub_node (world_of two_chunks)) = Some (Ok front, w1)
    ∧ store two_chunks_done !! 1%positive = Some (<[key := VList (front ++ rest)]> two_chunks).
Proof.
  apply (links_accumulate stub_node 1%positive (world_of two_chunks) two_chunks
           [VChunk (AStr (lit "Visit https://a.com/x and http://b.org"))]
           [VChunk (AStr (lit "No links here"))] 1%positive two_chunks_done);
    by vm_compute.
Defined.

(** X6. [execute] enters the fallback at most once per chunk and invokes
    the chain at most once per fallback: among the events of a run, the
    calls of the chain are no more than the logged fallbacks, which are
    no more than the chunks. *)
Theorem chain_called_at_most_once_per_chunk self state w d chunks :
  store w !! state = Some d →
  py_iter (default VNone (d !! lit "doc")) = Ok chunks →
  ∃ r w' evs,
    execute self state w = Some (r, w')
    ∧ log w' = log w ++ evs
    ∧ (length (List.filter is_chain_call evs)
       ≤ length (List.filter is_log_error evs) ≤ length chunks)%nat.
Proof.
  intros Hd Hiter. rewrite (execute_eq _ _ _ _ Hd), Hiter.
  destruct (for_chunks_calls self chunks [] (started self w))
    as (r & w1 & evs & -> & Hl & Hn & _).
  assert (∃ r' w', match r with
                   | Ok links =>
                       match list_item (output (base self)) 0 with
                       | Ok key =>
                           Some (Ok state,
                                 {| store := <[state := <[key := VList links]> d]> (store w);
                                    log := log w1 |})
                       | Raise e => Some (Raise e, w1)
                       end
                   | Raise e => Some (Raise e, w1)
                   end = Some (r', w') ∧ log w' = log w1) as (r' & w' & -> & Hl').
  { destruct r; [destruct (list_item _ _)|]; by eexists _, _. }
  exists r', w', (LogInfo (lit "--- Executing " ++ node_name (base self) ++ lit " Node ---") :: evs).
  split_and!; [done| |exact (proj1 Hn)|exact (proj2 Hn)].
  rewrite Hl', Hl. cbn [started log]. by rewrite <- app_assoc.
Qed.

Lemma chain_called_at_most_once_per_chunk_witness :
  ∃ r w' evs,
    execute number_node 1%positive (world_of three_chunks) = Some (r, w')
    ∧ log w' = log (world_of three_chunks) ++ evs
    ∧ (length (List.filter is_chain_call evs)
       ≤ length (List.filter is_log_error evs)
       ≤ length [VChunk (AStr (lit "http://a.com")); VChunk unprintable;
                 VChunk (AStr (lit "http://b.org"))])%nat.
Proof.
  apply (chain_called_at_most_once_per_chunk number_node 1%positive
           (world_of three_chunks) three_chunks); reflexivity.
Defined.

Lemma regex_links_are_links chunks ms0 links :
  regex_links chunks (VStr <$> ms0) = Ok links → Forall is_link ms0 →
  ∃ ms, links = VStr <$> ms ∧ Forall is_link ms.
Proof.
  revert ms0. induction chunks as [|chunk rest IH]; intros ms0 H Hms0.
  - injection H as <-. by exists ms0.
  - cbn [regex_links] in H. destruct (chunk_links chunk) as [ls|e] eqn:Hls; [|done].
    rewrite <- fmap_app in H. apply (IH _ H). apply Forall_app. split; [done|].
    unfold chunk_links in Hls. destruct (get_page_content chunk); [|done].
    destruct (py_str _) as [text|]; [|done]. injection Hls as <-.
    apply (links_of_links text), links_of_findall.
Qed.

(** X7. When [execute] returns without a fallback event, what it wrote is
    a list of strings, each of them a link: a scheme [http://] or
    [https://] followed by one or more characters outside the excluded
    set. *)
Theorem regex_only_output_links self state w d r w' :
  store w !! state = Some d →
  execute self state w = Some (Ok r, w') → regex_only w w' →
  ∃ key ms,
    output (base self) !! O = Some key
    ∧ store w' !! state = Some (<[key := VList (VStr <$> ms)]> d)
    ∧ Forall is_link ms.
Proof.
  intros Hd Hrun Hlog.
  destruct (execute_regex_only _ _ _ _ _ _ Hd Hrun Hlog) as [Hout _].
  unfold regex_outcome in Hout.
  destruct (py_iter _) as [chunks|e]; [|by destruct Hout].
  destruct (regex_links chunks []) as [links|e] eqn:Hlinks; [|by destruct Hout].
  unfold list_item in Hout.
  destruct (output (base self) !! O) as [key|]; [|by destruct Hout].
  destruct Hout as [_ Hs].
  destruct (regex_links_are_links chunks [] links Hlinks) as (ms & -> & Hms); [constructor|].
  exists key, ms. split_and!; [done| |done]. rewrite Hs. apply lookup_insert_eq.
Qed.

Lemma regex_only_output_links_witness :
  ∃ key ms,
    output (base stub_node) !! O = Some key
    ∧ store two_chunks_done !! 1%positive = Some (<[key := VList (VStr <$> ms)]> two_chunks)
    ∧ Forall is_link ms.
Proof.
  apply (regex_only_output_links stub_node 1%positive (world_of two_chunks) two_chunks
           1%positive two_chunks_done).
  - reflexivity.
  - vm_compute. reflexivity.
  - vm_compute. repeat constructor.
Defined.

(** X9. The links the loop found over string chunks, handed back to it as
    chunks of their own, come out as they went in: extraction gives
    nothing new on its own results. *)
Theorem extraction_idempotent self texts w :
  for_chunks self
    ((λ m, VChunk (AStr m)) <$> concat (re.findall url_pattern <$> texts)) [] w
  = Some (Ok (VStr <$> concat (re.findall url_pattern <$> texts)), w).
Proof.
  rewrite for_chunks_strings. cbn [app]. rewrite findall_links; [done|].
  induction texts as [|s texts IH]; [constructor|].
  cbn [fmap list_fmap concat]. apply Forall_app. split; [|exact IH].
  apply (links_of_links s), links_of_findall.
Qed.

(** X10. A chunk whose text is cut at a character of the excluded set
    (whitespace, say) gives the same links as its two parts as chunks of
    their own: no link reaches across the cut. *)
Theorem chunking_at_separator self acc s1 sep s2 w :
  link_char sep = false →
  for_chunks self [VChunk (AStr (s1 ++ sep :: s2))] acc w
  = for_chunks self [VChunk (AStr s1); VChunk (AStr s2)] acc w.
Proof.
  intros Hsep.
  change [VChunk (AStr (s1 ++ sep :: s2))] with ((λ s, VChunk (AStr s)) <$> [s1 ++ sep :: s2]).
  change [VChunk (AStr s1); VChunk (AStr s2)] with ((λ s, VChunk (AStr s)) <$> [s1; s2]).
  rewrite !for_chunks_strings. cbn [fmap list_fmap concat].
  by rewrite findall_split, !app_nil_r.
Qed.

Lemma chunking_at_separator_witness :
  for_chunks stub_node [VChunk (AStr (lit "see http://a.b" ++ 32 :: lit "and https://c.d"))]
             [] (world_of ∅)
  = for_chunks stub_node [VChunk (AStr (lit "see http://a.b")); VChunk (AStr (lit "and https://c.d"))]
               [] (world_of ∅).
Proof.
  apply (chunking_at_separator stub_node [] (lit "see http://a.b") 32 (lit "and https://c.d")).
  reflexivity.
Defined.

(** X11. The regular expression finds nothing exactly when no link begins
    at any position of the text. *)
Theorem no_match_iff_no_link s :
  re.findall url_pattern s = [] ↔ ∀ pre post, s = pre ++ post → ¬ link_at_head post.
Proof.
  rewrite <- links_of_nil. split.
  - intros <-. apply links_of_findall.
  - intros H. symmetry. by apply links_of_unique.
Qed.

(** X12. The matches are pieces of the text that do not overlap: taken
    together they are no longer than the text, and each is a link. *)
Theorem matches_fit_text s :
  (length (concat (re.findall url_pattern s)) ≤ length s)%nat
  ∧ Forall is_link (re.findall url_pattern s).
Proof.
  split; [apply links_of_length | apply (links_of_links s)]; apply links_of_findall.
Qed.

(** X13. Of the state, [execute] reads the entry [doc] and nothing else:
    two states that agree on it, run from the same log, end the same way,
    record the same events and, when they return, hold the same list
    under the output key. *)
Theorem execute_reads_doc_only self state w1 w2 d1 d2 :
  store w1 !! state = Some d1 → store w2 !! state = Some d2 →
  d1 !! lit "doc" = d2 !! lit "doc" → log w1 = log w2 →
  ∃ r w1' w2',
    execute self state w1 = Some (r, w1')
    ∧ execute self state w2 = Some (r, w2')
    ∧ log w1' = log w2'
    ∧ (∀ key, output (base self) !! O = Some key → r = Ok state →
         ∃ links, store w1' !! state = Some (<[key := VList links]> d1)
                  ∧ store w2' !! state = Some (<[key := VList links]> d2)).
Proof.
  intros Hd1 Hd2 Hdoc Hlog.
  rewrite (execute_eq _ _ _ _ Hd1), (execute_eq _ _ _ _ Hd2), <- Hdoc.
  assert (started self w2 = with_store (store w2) (started self w1)) as ->.
  { unfold started, with_store. cbn [log]. by rewrite Hlog. }
  destruct (py_iter _) as [chunks|e].
  { rewrite for_chunks_store.
    destruct (for_chunks_effects self chunks [] (started self w1))
      as (r & w & evs & -> & _). cbn [fmap option_fmap option_map].
    destruct r as [links|e].
    - unfold list_item. destruct (output (base self) !! O) as [key|].
      + eexists _, _, _. split_and!; [reflexivity..|].
        intros key' [= <-] _. exists links. cbn [store].
        by rewrite !lookup_insert_eq.
      + eexists _, _, _. split_and!; [reflexivity..|]. by intros ? [=].
    - eexists _, _, _. split_and!; [reflexivity..|]. by intros ? _ [=]. }
  eexists _, _, _. split_and!; [reflexivity..|]. by intros ? _ [=].
Qed.

Lemma execute_reads_doc_only_witness :
  ∃ r w1' w2',
    execute stub_node 1%positive (world_of two_chunks) = Some (r, w1')
    ∧ execute stub_node 1%positive (world_of stale) = Some (r, w2')
    ∧ log w1' = log w2'
    ∧ (∀ key, output (base stub_node) !! O = Some key → r = Ok 1%positive →
         ∃ links, store w1' !! 1%positive = Some (<[key := VList links]> two_chunks)
                  ∧ store w2' !! 1%positive = Some (<[key := VList links]> stale)).
Proof.
  apply (execute_reads_doc_only stub_node 1%positive (world_of two_chunks) (world_of stale)
           two_chunks stale); reflexivity.
Defined.

Lemma regex_links_texts chunks texts acc :
  Forall2 (λ chunk text, ∃ c, chunk = VChunk c ∧ py_str c = Ok text) chunks texts →
  regex_links chunks acc
  = Ok (acc ++ (VStr <$> concat (re.findall url_pattern <$> texts))).
Proof.
  intros H. revert acc.
  induction H as [|chunk text chunks texts (c & -> & Hc) _ IH]; intros acc.
  - cbn. by rewrite app_nil_r.
  - cbn [regex_links chunk_links get_page_content]. rewrite Hc, IH.
    cbn [fmap list_fmap concat]. by rewrite fmap_app, app_assoc.
Qed.

(** X14. When [str] returns for the content of every chunk, strings or
    not, the list [execute] writes is the concatenation of what the
    regular expression finds in these texts; only the opening line is
    logged, so the client plays no part in the run. *)
Theorem execute_printable_chunks self state w d chunks texts key :
  store w !! state = Some d →
  py_iter (default VNone (d !! lit "doc")) = Ok chunks →
  Forall2 (λ chunk text, ∃ c, chunk = VChunk c ∧ py_str c = Ok text) chunks texts →
  output (base self) !! O = Some key →
  execute self state w =
    Some (Ok state,
          {| store := <[state := <[key := VList (VStr <$> concat (re.findall url_pattern <$> texts))]> d]> (store w);
             log := log (started self w) |}).
Proof.
  intros Hd Hiter Htexts Hkey. rewrite (execute_eq _ _ _ _ Hd), Hiter.
  rewrite (regex_links_for_chunks _ _ _ _ _ (regex_links_texts _ _ [] Htexts)).
  unfold list_item. by rewrite Hkey.
Qed.

Lemma execute_printable_chunks_witness :
  execute stub_node 1%positive
          (world_of printable_doc)
  = Some (Ok 1%positive,
          {| store := <[1%positive :=
                <[lit "links" := VList (VStr <$> concat (re.findall url_pattern <$>
                                   [lit "-5"; lit "at http://a.b"; lit "<https://c.d>"]))]>
                printable_doc]>
                (store (world_of printable_doc));
             log := log (started stub_node
                      (world_of printable_doc)) |}).
Proof.
  apply (execute_printable_chunks stub_node 1%positive _
           printable_doc
           [VChunk (AInt (-5)); VChunk (AStr (lit "at http://a.b")); VChunk (AObject (Ok (lit "<https://c.d>")))]
           [lit "-5"; lit "at http://a.b"; lit "<https://c.d>"] (lit "links"));
    [reflexivity | reflexivity | | reflexivity].
  repeat constructor; eexists; (split; [reflexivity|]); reflexivity.
Defined.
